(** * DS1302 real-time clock driver (clock_ds1302.py): a shallow embedding

    The driver bit-bangs a three-wire protocol through three GPIO pins.
    Python integers are unbounded, so they are [Z]; [>>], [<<], [&], [|]
    are [Z.shiftr], [Z.shiftl], [Z.land], [Z.lor]; [//] and [%] with a
    positive divisor are [Z.div] and [Z.modulo] (both round to minus
    infinity, as Python does).

    The three pins are the only effect.  A board state records, in
    program order, every call made on a pin, and holds the levels the
    data line will show on the next [dio.value()] calls.  Methods are
    computations in a state-and-exception monad: a raised exception keeps
    the pin calls made before it. *)

From Stdlib Require Import ZArith List String Ascii Bool Lia.
From Stdlib Require Import DecimalString DecimalPos DecimalZ.
Import ListNotations.

Local Open Scope string_scope.
Local Open Scope list_scope.
Local Open Scope Z_scope.

(** ** Register addresses (module-level constants) *)

Definition RTC_SEC_WRITE : Z := 0x80.
Definition RTC_SEC_READ : Z := 0x81.
Definition RTC_MIN_WRITE : Z := 0x82.
Definition RTC_MIN_READ : Z := 0x83.
Definition RTC_HOUR_WRITE : Z := 0x84.
Definition RTC_HOUR_READ : Z := 0x85.
Definition RTC_DAY_OF_THE_MONTH_WRITE : Z := 0x86.
Definition RTC_DAY_OF_THE_MONTH_READ : Z := 0x87.
Definition RTC_MONTH_WRITE : Z := 0x88.
Definition RTC_MONTH_READ : Z := 0x89.
Definition RTC_DAY_OF_THE_WEEK_WRITE : Z := 0x8A.
Definition RTC_DAY_OF_THE_WEEK_READ : Z := 0x8B.
Definition RTC_YEAR_WRITE : Z := 0x8C.
Definition RTC_YEAR_READ : Z := 0x8D.
Definition RTC_REG_WRITE_PROTECTION : Z := 0x8E.
Definition RTC_REG_TRICKLE_CHARGER : Z := 0x90.
Definition RTC_REG_RAM_0 : Z := 0xC0.
Definition RTC_CLOCK_BURST_MODE : Z := 0xBE.

(** ** Pins and the board *)

(** The three [machine.Pin] objects the driver holds: [self.clk],
    [self.dio], [self.cs_rst]. *)
Inductive pin : Type := clk | dio | cs_rst.

(** [Pin.IN] and [Pin.OUT]. *)
Inductive pin_mode : Type := IN | OUT.

(** One call on a pin: [p.init(mode)], [p.value(x)] (drive the line) and
    [p.value()] (sample the line; the event keeps the level that was
    returned). *)
Inductive event : Type :=
| Init (p : pin) (m : pin_mode)
| Drive (p : pin) (level : Z)
| Sample (p : pin) (level : Z).

(** [trace]: the pin calls so far, oldest first.  [line]: the levels the
    peer puts on the data line, one per future [dio.value()] call; a
    line nobody drives any more reads low. *)
Record board : Type := mkBoard { trace : list event; line : list bool }.

Definition pin_eqb (p q : pin) : bool :=
  match p, q with
  | clk, clk | dio, dio | cs_rst, cs_rst => true
  | _, _ => false
  end.

(** ** Exceptions and the monad of driver methods *)

Inductive exn : Type := ValueError (msg : string).

Inductive result (A : Type) : Type :=
| Ok (a : A)
| Raise (e : exn).
Arguments Ok {A} a.
Arguments Raise {A} e.

Definition M (A : Type) : Type := board -> result A * board.

Definition ret {A} (a : A) : M A := fun s => (Ok a, s).

Definition bind {A B} (m : M A) (k : A -> M B) : M B :=
  fun s => match m s with
           | (Ok a, s') => k a s'
           | (Raise e, s') => (Raise e, s')
           end.

Definition raise {A} (e : exn) : M A := fun s => (Raise e, s).

(** A pure step that may raise, run inside [M]. *)
Definition lift {A} (r : result A) : M A := fun s => (r, s).

Declare Scope py_scope.
Delimit Scope py_scope with py.
Notation "x <- m ;; k" := (bind m (fun x => k))
  (at level 61, m at next level, right associativity) : py_scope.
Notation "m ;; k" := (bind m (fun _ => k))
  (at level 61, right associativity) : py_scope.
Local Open Scope py_scope.

(** [for i in range(n): body(i)], with an accumulator for the loop's
    local variable. *)
Fixpoint for_range {A} (idx : list nat) (body : nat -> A -> M A) (acc : A) : M A :=
  match idx with
  | [] => ret acc
  | i :: rest => acc' <- body i acc ;; for_range rest body acc'
  end.

Definition range (n : nat) : list nat := seq 0 n.

(** ** Pin primitives *)

Definition emit (e : event) : M unit :=
  fun s => (Ok tt, mkBoard (trace s ++ [e]) (line s)).

Definition pin_init (p : pin) (m : pin_mode) : M unit := emit (Init p m).

Definition pin_set (p : pin) (level : Z) : M unit := emit (Drive p level).

Definition pin_get (p : pin) : M Z :=
  fun s =>
    let level := Z.b2z (hd false (line s)) in
    (Ok level, mkBoard (trace s ++ [Sample p level]) (tl (line s))).

(** ** Python's [str] and [int] on the values the driver handles *)

(** [str(n)] for an integer: minus sign if negative, then the decimal
    digits without leading zeros. *)
Definition str (n : Z) : string := NilZero.string_of_int (Z.to_int n).

(** [s[lo:hi]] for [0 <= lo <= hi]: the characters at positions
    [lo .. hi-1] that exist; never raises. *)
Definition slice (lo hi : nat) (s : string) : string :=
  substring lo (hi - lo) s.

(** [int(s)] on a string: the empty string and non-numeric text raise
    [ValueError]; leading zeros are accepted.  (Python also accepts a
    plus sign, blanks and underscores; slices of [str] of an integer
    never contain them.) *)
Definition int_of_str (s : string) : result Z :=
  match NilZero.int_of_string s with
  | Some d => Ok (Z.of_int d)
  | None => Raise (ValueError "invalid literal for int() with base 10")
  end.

(** ** class DS1302 *)

Definition _year_prefix : string := "20".

Definition _sample_data_on_the_raising_edge_of_the_clock : M unit :=
  pin_set clk 1 ;;
  pin_set clk 0.

Definition _write_byte (byte : Z) : M unit :=
  pin_init dio OUT ;;
  for_range (range 8)
    (fun i _ =>
       let byte_to_write := Z.land (Z.shiftr byte (Z.of_nat i)) 1 in
       pin_set dio byte_to_write ;;
       _sample_data_on_the_raising_edge_of_the_clock)
    tt.

Definition _read_byte : M Z :=
  pin_init dio IN ;;
  for_range (range 8)
    (fun i data =>
       bit_value <- pin_get dio ;;
       let data := Z.lor data (Z.shiftl bit_value (Z.of_nat i)) in
       _sample_data_on_the_raising_edge_of_the_clock ;;
       ret data)
    0.

Definition _write_data_to_register (register data : Z) : M unit :=
  pin_set cs_rst 1 ;;
  _write_byte register ;;
  _write_byte data ;;
  pin_set cs_rst 0.

Definition _bcd_to_string (bcd_value : Z) : string :=
  let tens_digit := Z.land (Z.shiftr bcd_value 4) 0x0F in
  let units_digit := Z.land bcd_value 0x0F in
  let tens_digit_decimal := tens_digit * 10 in
  let units_digit_decimal := units_digit in
  let result_string := str (tens_digit_decimal + units_digit_decimal) in
  result_string.

Definition _int_to_bcd (integer_value : Z) : result Z :=
  if (integer_value <? 0) || (integer_value >? 99) then
    Raise (ValueError "Input must be in the range [0, 99]")
  else
    let tens_digit := integer_value / 10 in
    let units_digit := integer_value mod 10 in
    let bcd_value := Z.lor (Z.shiftl tens_digit 4) units_digit in
    Ok bcd_value.

Definition _unlock_then_write (register data : Z) : M unit :=
  dataInBcd <- lift (_int_to_bcd data) ;;
  _write_data_to_register RTC_REG_WRITE_PROTECTION 0 ;;
  _write_data_to_register register dataInBcd ;;
  _write_data_to_register RTC_REG_WRITE_PROTECTION 0x80.

Definition _read_from_regiter (register : Z) : M string :=
  pin_set cs_rst 1 ;;
  _write_byte register ;;
  data_readed <- _read_byte ;;
  pin_set cs_rst 0 ;;
  ret (_bcd_to_string data_readed).

Definition _prepare_year_for_save (year : Z) : result Z :=
  let yearAsString := str year in
  int_of_str (slice 2 4 yearAsString).

(** [if cond: body] *)
Definition when (cond : bool) (body : M unit) : M unit :=
  if cond then body else ret tt.

(** [__init__]: the clock and chip-select pins become outputs. *)
Definition __init__ : M unit :=
  pin_init clk OUT ;;
  pin_init cs_rst OUT.

(** *** Public API *)

Definition writeSeconds (seconds : Z) : M unit :=
  _unlock_then_write RTC_SEC_WRITE seconds.

Definition readSeconds : M string :=
  _read_from_regiter RTC_SEC_READ.

Definition writeMinutes (minutes : Z) : M unit :=
  _unlock_then_write RTC_MIN_WRITE minutes.

Definition readMinutes : M string :=
  _read_from_regiter RTC_MIN_READ.

Definition writeHours (hours : Z) : M unit :=
  _unlock_then_write RTC_HOUR_WRITE hours.

Definition readHours : M string :=
  _read_from_regiter RTC_HOUR_READ.

Definition writeDayOfTheMonth (dayOfTheMonth : Z) : M unit :=
  _unlock_then_write RTC_DAY_OF_THE_MONTH_WRITE dayOfTheMonth.

Definition readDayOfTheMonth : M string :=
  _read_from_regiter RTC_DAY_OF_THE_MONTH_READ.

Definition writeMonth (month : Z) : M unit :=
  _unlock_then_write RTC_MONTH_WRITE month.

Definition readMonth : M string :=
  _read_from_regiter RTC_MONTH_READ.

Definition writeDayOfTheWeek (dayOfTheWeek : Z) : M unit :=
  _unlock_then_write RTC_DAY_OF_THE_WEEK_WRITE dayOfTheWeek.

Definition readDayOfTheWeek : M string :=
  _read_from_regiter RTC_DAY_OF_THE_WEEK_READ.

Definition writeYear (year : Z) : M unit :=
  yearForSave <- lift (_prepare_year_for_save year) ;;
  _unlock_then_write RTC_YEAR_WRITE yearForSave.

Definition readYear : M string :=
  two_digits <- _read_from_regiter RTC_YEAR_READ ;;
  ret (_year_prefix ++ two_digits)%string.

Definition start : M unit :=
  _write_byte RTC_CLOCK_BURST_MODE.

Definition getDate : M string :=
  day <- readDayOfTheMonth ;;
  month <- readMonth ;;
  year <- readYear ;;
  hour <- readHours ;;
  min <- readMinutes ;;
  sec <- readSeconds ;;
  dayOfTheWeek <- readDayOfTheWeek ;;
  ret ("Date: " ++ day ++ "." ++ month ++ "." ++ year ++ ", " ++ hour
         ++ ":" ++ min ++ ":" ++ sec ++ ", Day: " ++ dayOfTheWeek)%string.

(** The conditions of [setDate] are written with [&].  In Python [&]
    binds tighter than [>] and [<], and comparisons chain, so
    [x & x > lo & x < hi] is read as [(x & x) > (lo & x) < hi], that is
    [(x & x) > (lo & x) and (lo & x) < hi]; unary minus binds tighter
    than [&], so [-1 & x] is [(-1) & x].  The conditions below are the
    expressions as Python evaluates them. *)
Definition setDate (dayOfTheMonth month year hour minute second dayOfWeek : Z)
  : M unit :=
  when ((Z.land dayOfTheMonth dayOfTheMonth >? Z.land 0 dayOfTheMonth)
        && (Z.land 0 dayOfTheMonth <? 32))
    (writeDayOfTheMonth dayOfTheMonth) ;;
  when ((Z.land month month >? Z.land 0 month) && (Z.land 0 month <? 13))
    (writeMonth month) ;;
  when (Z.land year year >? 0)
    (writeYear year) ;;
  when ((Z.land hour hour >? Z.land (-1) hour) && (Z.land (-1) hour <? 23))
    (writeHours hour) ;;
  when ((Z.land minute minute >? Z.land (-1) minute)
        && (Z.land (-1) minute <? 60))
    (writeMinutes minute) ;;
  when ((Z.land second second >? Z.land (-1) second)
        && (Z.land (-1) second <? 60))
    (writeSeconds second) ;;
  when ((Z.land dayOfWeek dayOfWeek >? Z.land 0 dayOfWeek)
        && (Z.land 0 dayOfWeek <? 8))
    (writeDayOfTheWeek dayOfWeek).

(** ** Reading a trace back as register transactions

    The peer's view of the wire.  A register transaction is: chip-select
    driven to 1; the data pin made an output and eight clocked bits (the
    command byte); then either eight more clocked output bits (the data
    byte of a write) or the data pin made an input and eight clocked
    samples (the data byte of a read); chip-select driven to 0.  A
    clocked bit is the data-line event followed by clock 1, clock 0.
    Bytes travel least-significant bit first. *)

Inductive transaction : Type :=
| RegWrite (register data : Z)
| RegRead (register data : Z).

Definition is_level (v : Z) : bool := (v =? 0) || (v =? 1).

Fixpoint byte_of_bits (bits : list Z) : Z :=
  match bits with
  | [] => 0
  | b :: more => b + 2 * byte_of_bits more
  end.

Fixpoint take_driven (n : nat) (evs : list event) : option (list Z * list event) :=
  match n with
  | O => Some ([], evs)
  | S n' =>
      match evs with
      | Drive dio v :: Drive clk 1 :: Drive clk 0 :: rest =>
          if is_level v then
            match take_driven n' rest with
            | Some (vs, rest') => Some (v :: vs, rest')
            | None => None
            end
          else None
      | _ => None
      end
  end.

Fixpoint take_sampled (n : nat) (evs : list event) : option (list Z * list event) :=
  match n with
  | O => Some ([], evs)
  | S n' =>
      match evs with
      | Sample dio v :: Drive clk 1 :: Drive clk 0 :: rest =>
          if is_level v then
            match take_sampled n' rest with
            | Some (vs, rest') => Some (v :: vs, rest')
            | None => None
            end
          else None
      | _ => None
      end
  end.

Definition take_transaction (evs : list event) : option (transaction * list event) :=
  match evs with
  | Drive cs_rst 1 :: Init dio OUT :: after_select =>
      match take_driven 8 after_select with
      | Some (command, Init dio OUT :: after_command) =>
          match take_driven 8 after_command with
          | Some (data, Drive cs_rst 0 :: rest) =>
              Some (RegWrite (byte_of_bits command) (byte_of_bits data), rest)
          | _ => None
          end
      | Some (command, Init dio IN :: after_command) =>
          match take_sampled 8 after_command with
          | Some (data, Drive cs_rst 0 :: rest) =>
              Some (RegRead (byte_of_bits command) (byte_of_bits data), rest)
          | _ => None
          end
      | _ => None
      end
  | _ => None
  end.

(** A whole trace as back-to-back transactions; [None] if some event
    lies outside a transaction or a transaction is malformed. *)
Fixpoint transactions_upto (fuel : nat) (evs : list event) : option (list transaction) :=
  match evs with
  | [] => Some []
  | _ =>
      match fuel with
      | O => None
      | S fuel' =>
          match take_transaction evs with
          | Some (t, rest) =>
              match transactions_upto fuel' rest with
              | Some ts => Some (t :: ts)
              | None => None
              end
          | None => None
          end
      end
  end.

Definition transactions (evs : list event) : option (list transaction) :=
  transactions_upto (List.length evs) evs.

(** The levels written to one pin, in order. *)
Definition levels_driven (p : pin) (evs : list event) : list Z :=
  flat_map (fun e => match e with
                     | Drive q v => if pin_eqb p q then [v] else []
                     | _ => []
                     end) evs.

(** ** What one byte looks like on the wire *)

(** The eight bits of [b], least significant first. *)
Definition bits_of (b : Z) : list bool :=
  map (fun i => Z.testbit b (Z.of_nat i)) (range 8).

Definition clocked (e : event) : list event :=
  [e; Drive clk 1; Drive clk 0].

Definition write_byte_events (b : Z) : list event :=
  Init dio OUT :: flat_map (fun bit => clocked (Drive dio (Z.b2z bit))) (bits_of b).

Definition read_byte_events (b : Z) : list event :=
  Init dio IN :: flat_map (fun bit => clocked (Sample dio (Z.b2z bit))) (bits_of b).

Definition write_transaction_events (register data : Z) : list event :=
  [Drive cs_rst 1] ++ write_byte_events register ++ write_byte_events data
    ++ [Drive cs_rst 0].

Definition read_transaction_events (register data : Z) : list event :=
  [Drive cs_rst 1] ++ write_byte_events register ++ read_byte_events data
    ++ [Drive cs_rst 0].

Definition transaction_events (t : transaction) : list event :=
  match t with
  | RegWrite r d => write_transaction_events r d
  | RegRead r d => read_transaction_events r d
  end.

Definition is_byte (b : Z) : Prop := 0 <= b < 256.

Definition well_formed (t : transaction) : Prop :=
  match t with
  | RegWrite r d | RegRead r d => is_byte r /\ is_byte d
  end.

(** The board after [evs] more pin calls that sample nothing. *)
Definition extend (s : board) (evs : list event) : board :=
  mkBoard (trace s ++ evs) (line s).

(** ** Vocabulary of the statements *)

(** The accumulator of [_read_byte] after the loop has seen [bits] at
    positions [idx]. *)
Fixpoint assemble (idx : list nat) (bits : list bool) (data : Z) : Z :=
  match idx, bits with
  | i :: idx', bit :: bits' =>
      assemble idx' bits' (Z.lor data (Z.shiftl (Z.b2z bit) (Z.of_nat i)))
  | _, _ => data
  end.

(** Digit lists ([Decimal.uint], most significant digit first) are what
    [str] prints; dropping and keeping leading digits on them mirrors
    slicing the printed string. *)
Fixpoint uint_drop (n : nat) (d : Decimal.uint) : Decimal.uint :=
  match n with
  | O => d
  | S n' =>
      match d with
      | Decimal.Nil => Decimal.Nil
      | Decimal.D0 d' | Decimal.D1 d' | Decimal.D2 d' | Decimal.D3 d'
      | Decimal.D4 d' | Decimal.D5 d' | Decimal.D6 d' | Decimal.D7 d'
      | Decimal.D8 d' | Decimal.D9 d' => uint_drop n' d'
      end
  end.

Fixpoint uint_take (m : nat) (d : Decimal.uint) : Decimal.uint :=
  match m with
  | O => Decimal.Nil
  | S m' =>
      match d with
      | Decimal.Nil => Decimal.Nil
      | Decimal.D0 d' => Decimal.D0 (uint_take m' d')
      | Decimal.D1 d' => Decimal.D1 (uint_take m' d')
      | Decimal.D2 d' => Decimal.D2 (uint_take m' d')
      | Decimal.D3 d' => Decimal.D3 (uint_take m' d')
      | Decimal.D4 d' => Decimal.D4 (uint_take m' d')
      | Decimal.D5 d' => Decimal.D5 (uint_take m' d')
      | Decimal.D6 d' => Decimal.D6 (uint_take m' d')
      | Decimal.D7 d' => Decimal.D7 (uint_take m' d')
      | Decimal.D8 d' => Decimal.D8 (uint_take m' d')
      | Decimal.D9 d' => Decimal.D9 (uint_take m' d')
      end
  end.

(** The decimal reading of a BCD byte: high nibble as tens, low nibble
    as units, printed in base 10. *)
Definition bcd_decimal (b : Z) : string := str (b / 16 * 10 + b mod 16).

(** The number of decimal digits of an integer, sign not counted. *)
Definition decimal_digits (n : Z) : nat := String.length (str (Z.abs n)).

(** The six writers that pass their argument straight to
    [_unlock_then_write], each with the register it addresses. *)
Definition field_writers : list ((Z -> M unit) * Z) :=
  [(writeSeconds, RTC_SEC_WRITE);
   (writeMinutes, RTC_MIN_WRITE);
   (writeHours, RTC_HOUR_WRITE);
   (writeDayOfTheMonth, RTC_DAY_OF_THE_MONTH_WRITE);
   (writeMonth, RTC_MONTH_WRITE);
   (writeDayOfTheWeek, RTC_DAY_OF_THE_WEEK_WRITE)].

(** The three transactions of one protected write. *)
Definition protected_write (register bcd : Z) : list transaction :=
  [RegWrite RTC_REG_WRITE_PROTECTION 0;
   RegWrite register bcd;
   RegWrite RTC_REG_WRITE_PROTECTION 0x80].

(** A write transaction addressed to one of the registers [regs]. *)
Definition addresses (regs : list Z) (t : transaction) : Prop :=
  match t with
  | RegWrite r _ => In r regs
  | RegRead _ _ => False
  end.

(** A computation is [quiet_on regs] when, from every board, all it adds
    to the trace is a sequence of whole write transactions addressed to
    registers of [regs], whether it returns or raises. *)
Definition quiet_on {A} (regs : list Z) (m : M A) : Prop :=
  forall s, exists ts,
    snd (m s) = extend s (flat_map transaction_events ts)
    /\ Forall (addresses regs) ts.

(** Registers [setDate] ever writes: write-protect, day, month, year and
    weekday.  The hour (0x84), minute (0x82) and second (0x80) registers
    are not among them. *)
Definition setDate_registers : list Z :=
  [RTC_REG_WRITE_PROTECTION; RTC_DAY_OF_THE_MONTH_WRITE; RTC_MONTH_WRITE;
   RTC_YEAR_WRITE; RTC_DAY_OF_THE_WEEK_WRITE].

(** The data pin's direction discipline.  Starting from the direction
    [mode] the pin was last given ([None]: never configured), a trace is
    accepted when the pin is driven only as an output and sampled only as
    an input; the result is the direction the trace leaves it in. *)
Fixpoint dio_discipline (mode : option pin_mode) (evs : list event)
  : option (option pin_mode) :=
  match evs with
  | [] => Some mode
  | Init dio m :: rest => dio_discipline (Some m) rest
  | Drive dio _ :: rest =>
      match mode with
      | Some OUT => dio_discipline mode rest
      | _ => None
      end
  | Sample dio _ :: rest =>
      match mode with
      | Some IN => dio_discipline mode rest
      | _ => None
      end
  | _ :: rest => dio_discipline mode rest
  end.

(** The BCD byte of a number from 0 to 99, as arithmetic. *)
Definition bcd_of (v : Z) : Z := 16 * (v / 10) + v mod 10.

(** A byte whose two nibbles are decimal digits. *)
Definition valid_bcd (b : Z) : Prop := 0 <= b / 16 <= 9 /\ 0 <= b mod 16 <= 9.

(** Each direct writer with the reader of the same field and the
    field's write address. *)
Definition field_table : list ((Z -> M unit) * M string * Z) :=
  [(writeSeconds, readSeconds, RTC_SEC_WRITE);
   (writeMinutes, readMinutes, RTC_MIN_WRITE);
   (writeHours, readHours, RTC_HOUR_WRITE);
   (writeDayOfTheMonth, readDayOfTheMonth, RTC_DAY_OF_THE_MONTH_WRITE);
   (writeMonth, readMonth, RTC_MONTH_WRITE);
   (writeDayOfTheWeek, readDayOfTheWeek, RTC_DAY_OF_THE_WEEK_WRITE)].

(** The calendar registers [setDate] can reach. *)
Definition calendar_registers : list Z :=
  [RTC_DAY_OF_THE_MONTH_WRITE; RTC_MONTH_WRITE; RTC_YEAR_WRITE;
   RTC_DAY_OF_THE_WEEK_WRITE].

(** The transactions of a sequence of protected writes, one per
    (register, BCD byte) pair. *)
Definition protected_writes (ws : list (Z * Z)) : list transaction :=
  flat_map (fun w => protected_write (fst w) (snd w)) ws.

(** A computation that, from every board and whether it returns or
    raises, adds to the trace only whole protected writes of BCD bytes to
    registers of [regs]. *)
Definition protected_only {A} (regs : list Z) (m : M A) : Prop :=
  forall s, exists ws,
    snd (m s) = extend s (flat_map transaction_events (protected_writes ws))
    /\ Forall (fun w => In (fst w) regs /\ is_byte (snd w)) ws.

(** [all_from P z n]: the test [P] holds on the [n] integers from [z]
    upwards. *)
Fixpoint all_from (P : Z -> bool) (z : Z) (n : nat) : bool :=
  match n with
  | O => true
  | S n' => P z && all_from P (z + 1) n'
  end.

(** * Proofs *)

(** ** Bits of a byte *)

Lemma land_shiftr_bit (b : Z) (i : nat) :
  Z.land (Z.shiftr b (Z.of_nat i)) 1 = Z.b2z (Z.testbit b (Z.of_nat i)).
Proof.
  change 1 with (Z.ones 1).
  rewrite Z.land_ones by lia.
  change (2 ^ 1) with 2.
  rewrite <- Z.bit0_mod, Z.shiftr_spec by lia.
  reflexivity.
Qed.

Lemma byte_of_testbits (b : Z) (n k : nat) :
  byte_of_bits (map (fun i => Z.b2z (Z.testbit b (Z.of_nat i))) (seq k n))
  = (b / 2 ^ Z.of_nat k) mod 2 ^ Z.of_nat n.
Proof.
  revert k. induction n as [|n IH]; intros k.
  - cbn [seq map byte_of_bits]. now rewrite Z.mod_1_r.
  - cbn [seq map byte_of_bits]. rewrite IH.
    rewrite Z.testbit_spec' by lia.
    replace (Z.of_nat (S k)) with (Z.of_nat k + 1) by lia.
    replace (Z.of_nat (S n)) with (1 + Z.of_nat n) by lia.
    rewrite !Z.pow_add_r by lia. change (2 ^ 1) with 2.
    rewrite <- Z.div_div by lia.
    rewrite (Z.rem_mul_r _ 2 (2 ^ Z.of_nat n)) by lia.
    reflexivity.
Qed.

Lemma byte_of_bits_of (b : Z) :
  is_byte b -> byte_of_bits (map Z.b2z (bits_of b)) = b.
Proof.
  intros Hb. unfold bits_of, range. rewrite map_map.
  rewrite byte_of_testbits. change (2 ^ Z.of_nat 0) with 1.
  change (2 ^ Z.of_nat 8) with 256. rewrite Z.div_1_r.
  apply Z.mod_small. exact Hb.
Qed.

Lemma bits_of_length (b : Z) : List.length (bits_of b) = 8%nat.
Proof. reflexivity. Qed.

Lemma is_level_b2z (bit : bool) : is_level (Z.b2z bit) = true.
Proof. now destruct bit. Qed.

(** ** The decoder inverts the wire format *)

Lemma take_driven_clocked (bits : list bool) (rest : list event) :
  take_driven (List.length bits)
    (flat_map (fun bit => clocked (Drive dio (Z.b2z bit))) bits ++ rest)
  = Some (map Z.b2z bits, rest).
Proof.
  induction bits as [|bit bits IH]; [reflexivity|].
  cbn [List.length flat_map clocked app map take_driven].
  rewrite is_level_b2z, IH. reflexivity.
Qed.

Lemma take_sampled_clocked (bits : list bool) (rest : list event) :
  take_sampled (List.length bits)
    (flat_map (fun bit => clocked (Sample dio (Z.b2z bit))) bits ++ rest)
  = Some (map Z.b2z bits, rest).
Proof.
  induction bits as [|bit bits IH]; [reflexivity|].
  cbn [List.length flat_map clocked app map take_sampled].
  rewrite is_level_b2z, IH. reflexivity.
Qed.

Lemma take_transaction_events (t : transaction) (rest : list event) :
  well_formed t ->
  take_transaction (transaction_events t ++ rest) = Some (t, rest).
Proof.
  destruct t as [r d|r d]; intros [Hr Hd];
    unfold transaction_events, write_transaction_events,
      read_transaction_events, write_byte_events, read_byte_events;
    cbn [app]; rewrite <- ?app_comm_cons, <- ?app_assoc; cbn [app];
    rewrite <- ?app_comm_cons, <- ?app_assoc; cbn [app];
    unfold take_transaction;
    rewrite (take_driven_clocked (bits_of r)).
  - rewrite (take_driven_clocked (bits_of d)).
    now rewrite !byte_of_bits_of.
  - rewrite (take_sampled_clocked (bits_of d)).
    now rewrite !byte_of_bits_of.
Qed.

Lemma transactions_upto_events (ts : list transaction) :
  Forall well_formed ts ->
  forall fuel, (List.length ts <= fuel)%nat ->
  transactions_upto fuel (flat_map transaction_events ts) = Some ts.
Proof.
  induction 1 as [|t ts Ht Hts IH]; intros fuel Hfuel.
  - now destruct fuel.
  - cbn [flat_map].
    destruct fuel as [|fuel]; [cbn in Hfuel; lia|].
    assert (Hcons : exists e l, transaction_events t ++ flat_map transaction_events ts = e :: l)
      by (destruct t; cbn; eauto).
    destruct Hcons as (e & l & Hcons).
    cbn [transactions_upto]. rewrite Hcons, <- Hcons.
    rewrite take_transaction_events by assumption.
    rewrite IH by (cbn in Hfuel; lia). reflexivity.
Qed.

Lemma transaction_events_length (t : transaction) :
  List.length (transaction_events t) = 52%nat.
Proof. destruct t; reflexivity. Qed.

(** Concatenated well-formed transactions decode to themselves. *)
Lemma transactions_events (ts : list transaction) :
  Forall well_formed ts ->
  transactions (flat_map transaction_events ts) = Some ts.
Proof.
  intros Hts. apply transactions_upto_events; [assumption|].
  induction ts as [|t ts IH]; [cbn; lia|].
  inversion Hts; subst. cbn [flat_map List.length].
  rewrite length_app, transaction_events_length.
  specialize (IH ltac:(assumption)). lia.
Qed.

(** ** Running the monad *)

Lemma bind_Ok {A B} (m : M A) (k : A -> M B) (s s' : board) (a : A) :
  m s = (Ok a, s') -> bind m k s = k a s'.
Proof. unfold bind. now intros ->. Qed.

Lemma bind_Raise {A B} (m : M A) (k : A -> M B) (s s' : board) (e : exn) :
  m s = (Raise e, s') -> bind m k s = (Raise e, s').
Proof. unfold bind. now intros ->. Qed.

Lemma extend_extend (s : board) (evs evs' : list event) :
  extend (extend s evs) evs' = extend s (evs ++ evs').
Proof. unfold extend. cbn. now rewrite app_assoc. Qed.

Lemma extend_nil (s : board) : extend s [] = s.
Proof. destruct s. unfold extend. cbn. now rewrite app_nil_r. Qed.

Lemma pin_set_run (p : pin) (v : Z) (s : board) :
  pin_set p v s = (Ok tt, extend s [Drive p v]).
Proof. reflexivity. Qed.

Lemma pin_init_run (p : pin) (m : pin_mode) (s : board) :
  pin_init p m s = (Ok tt, extend s [Init p m]).
Proof. reflexivity. Qed.

Lemma clock_pulse_run (s : board) :
  _sample_data_on_the_raising_edge_of_the_clock s
  = (Ok tt, extend s [Drive clk 1; Drive clk 0]).
Proof.
  unfold _sample_data_on_the_raising_edge_of_the_clock.
  rewrite (bind_Ok _ _ _ _ _ (pin_set_run _ _ _)), pin_set_run.
  now rewrite extend_extend.
Qed.

(** Chains of [bind] are run one call at a time with the lemma of each
    callee; [run_with] takes that lemma, [run_done] tidies the board. *)
Ltac run_with lem := erewrite bind_Ok by (apply lem).
Ltac run_done := rewrite ?extend_extend, <- ?app_assoc; cbn [app].

(** ** Bit-level transport *)

Lemma write_loop_run (byte : Z) (idx : list nat) (s : board) :
  for_range idx
    (fun i _ =>
       let byte_to_write := Z.land (Z.shiftr byte (Z.of_nat i)) 1 in
       pin_set dio byte_to_write ;;
       _sample_data_on_the_raising_edge_of_the_clock) tt s
  = (Ok tt,
     extend s (flat_map
                 (fun i => clocked (Drive dio (Z.b2z (Z.testbit byte (Z.of_nat i)))))
                 idx)).
Proof.
  revert s. induction idx as [|i idx IH]; intros s.
  - cbn. now rewrite extend_nil.
  - cbn [for_range flat_map]. cbv zeta.
    erewrite bind_Ok.
    2:{ run_with pin_set_run. apply clock_pulse_run. }
    rewrite IH, land_shiftr_bit. run_done. reflexivity.
Qed.

Lemma _write_byte_run (byte : Z) (s : board) :
  _write_byte byte s = (Ok tt, extend s (write_byte_events byte)).
Proof.
  unfold _write_byte. run_with pin_init_run.
  rewrite write_loop_run. run_done. reflexivity.
Qed.

Lemma read_loop_run (bits : list bool) :
  forall (idx : list nat) (data : Z) (s : board) (rest : list bool),
  List.length idx = List.length bits ->
  line s = bits ++ rest ->
  for_range idx
    (fun i data =>
       bit_value <- pin_get dio ;;
       let data := Z.lor data (Z.shiftl bit_value (Z.of_nat i)) in
       _sample_data_on_the_raising_edge_of_the_clock ;;
       ret data) data s
  = (Ok (assemble idx bits data),
     mkBoard
       (trace s ++ flat_map (fun bit => clocked (Sample dio (Z.b2z bit))) bits)
       rest).
Proof.
  induction bits as [|bit bits IH]; intros idx data s rest Hlen Hline.
  - destruct idx; [|discriminate]. destruct s as [t l]. cbn in *.
    subst. now rewrite app_nil_r.
  - destruct idx as [|i idx]; [discriminate|].
    cbn [for_range assemble flat_map].
    erewrite bind_Ok.
    2:{ unfold bind at 1, pin_get. rewrite Hline. cbn [hd tl app]. cbv zeta.
        run_with clock_pulse_run. reflexivity. }
    rewrite (IH idx _ _ rest); [|now injection Hlen|reflexivity].
    cbn [trace extend]. rewrite <- !app_assoc. reflexivity.
Qed.

(** Checking a decidable property on a finite range of integers by
    running it on each of them. *)
Lemma range_cases (lo : Z) (n : nat) (P : Z -> bool) :
  forallb P (map (fun i => lo + Z.of_nat i) (seq 0 n)) = true ->
  forall z, lo <= z < lo + Z.of_nat n -> P z = true.
Proof.
  intros Hall z Hz. rewrite forallb_forall in Hall. apply Hall.
  replace z with (lo + Z.of_nat (Z.to_nat (z - lo))) by lia.
  apply (in_map (fun i => lo + Z.of_nat i)), in_seq. lia.
Qed.

Lemma assemble_bits_of (b : Z) :
  is_byte b -> assemble (range 8) (bits_of b) 0 = b.
Proof.
  intros Hb. apply Z.eqb_eq.
  apply (range_cases 0 256 (fun b => assemble (range 8) (bits_of b) 0 =? b));
    [vm_compute; reflexivity|exact Hb].
Qed.

Lemma _read_byte_run (b : Z) (s : board) (rest : list bool) :
  is_byte b ->
  line s = bits_of b ++ rest ->
  _read_byte s = (Ok b, mkBoard (trace s ++ read_byte_events b) rest).
Proof.
  intros Hb Hline. unfold _read_byte. run_with pin_init_run.
  rewrite (read_loop_run (bits_of b) _ _ _ rest); [|reflexivity|exact Hline].
  rewrite assemble_bits_of by exact Hb.
  cbn [trace extend]. rewrite <- app_assoc. reflexivity.
Qed.

(** ** Register transactions *)

Lemma _write_data_to_register_run (register data : Z) (s : board) :
  _write_data_to_register register data s
  = (Ok tt, extend s (transaction_events (RegWrite register data))).
Proof.
  unfold _write_data_to_register.
  run_with pin_set_run. run_with _write_byte_run. run_with _write_byte_run.
  rewrite pin_set_run. run_done. reflexivity.
Qed.

Lemma _read_from_regiter_run (register b : Z) (s : board) (rest : list bool) :
  is_byte b ->
  line s = bits_of b ++ rest ->
  _read_from_regiter register s
  = (Ok (_bcd_to_string b),
     mkBoard (trace s ++ transaction_events (RegRead register b)) rest).
Proof.
  intros Hb Hline. unfold _read_from_regiter.
  run_with pin_set_run. run_with _write_byte_run.
  erewrite bind_Ok by (apply (_read_byte_run b _ rest); [exact Hb|exact Hline]).
  run_with pin_set_run. unfold ret, extend. cbn [trace line].
  rewrite <- !app_assoc. reflexivity.
Qed.

Lemma _unlock_then_write_run (register data bcd : Z) (s : board) :
  _int_to_bcd data = Ok bcd ->
  _unlock_then_write register data s
  = (Ok tt,
     extend s (flat_map transaction_events
                 [RegWrite RTC_REG_WRITE_PROTECTION 0;
                  RegWrite register bcd;
                  RegWrite RTC_REG_WRITE_PROTECTION 0x80])).
Proof.
  intros Hbcd. unfold _unlock_then_write.
  erewrite bind_Ok by (unfold lift; rewrite Hbcd; reflexivity).
  run_with _write_data_to_register_run. run_with _write_data_to_register_run.
  rewrite _write_data_to_register_run, !extend_extend.
  cbn [flat_map]. now rewrite app_nil_r.
Qed.

Lemma _unlock_then_write_raise (register data : Z) (e : exn) (s : board) :
  _int_to_bcd data = Raise e ->
  _unlock_then_write register data s = (Raise e, s).
Proof.
  intros Hbcd. unfold _unlock_then_write.
  apply bind_Raise. unfold lift. now rewrite Hbcd.
Qed.

(** ** BCD codec *)

Section Nibbles.

Variables tens units : Z.
Hypothesis units_nibble : 0 <= units < 16.

Lemma nibbles_disjoint : Z.land (Z.shiftl tens 4) units = 0.
Proof.
  apply Z.bits_inj'. intros n Hn.
  rewrite Z.land_spec, Z.bits_0.
  destruct (Z.ltb_spec n 4) as [Hlow|Hhigh].
  - now rewrite Z.shiftl_spec_low.
  - destruct (Z.eq_dec units 0) as [->|Hnz].
    + now rewrite Z.bits_0, andb_false_r.
    + rewrite (Z.bits_above_log2 units n), andb_false_r; [reflexivity|lia|].
      apply Z.lt_le_trans with 4; [|exact Hhigh].
      apply Z.log2_lt_pow2; lia.
Qed.

(** Packing two nibbles with shift-and-or is [16 * tens + units]. *)
Lemma pack_nibbles : Z.lor (Z.shiftl tens 4) units = 16 * tens + units.
Proof.
  rewrite <- Z.lxor_lor, <- Z.add_nocarry_lxor by apply nibbles_disjoint.
  rewrite Z.shiftl_mul_pow2 by lia. change (2 ^ 4) with 16. lia.
Qed.

End Nibbles.

(** Shift-and-mask reads the two nibbles of a non-negative value. *)
Lemma unpack_nibbles (b : Z) :
  Z.land (Z.shiftr b 4) 0x0F = (b / 16) mod 16 /\ Z.land b 0x0F = b mod 16.
Proof.
  change 0x0F with (Z.ones 4).
  rewrite !Z.land_ones, Z.shiftr_div_pow2 by lia.
  now change (2 ^ 4) with 16.
Qed.

Lemma _int_to_bcd_in_range (v : Z) :
  0 <= v <= 99 ->
  _int_to_bcd v = Ok (16 * (v / 10) + v mod 10).
Proof.
  intros Hv. unfold _int_to_bcd.
  destruct (Z.ltb_spec v 0); [lia|].
  destruct (Z.gtb_spec v 99); [lia|]. cbn [orb].
  rewrite pack_nibbles; [reflexivity|].
  pose proof (Z.mod_pos_bound v 10). lia.
Qed.

Lemma _int_to_bcd_out_of_range (v : Z) :
  v < 0 \/ 99 < v ->
  _int_to_bcd v = Raise (ValueError "Input must be in the range [0, 99]").
Proof.
  intros Hv. unfold _int_to_bcd.
  destruct (Z.ltb_spec v 0); [reflexivity|].
  destruct (Z.gtb_spec v 99); [reflexivity|lia].
Qed.

Lemma bcd_is_byte (v : Z) :
  0 <= v <= 99 -> is_byte (16 * (v / 10) + v mod 10).
Proof.
  intros Hv. unfold is_byte.
  pose proof (Z.mod_pos_bound v 10 ltac:(lia)).
  assert (0 <= v / 10 <= 9).
  { split; [apply Z.div_pos; lia|].
    apply Z.lt_succ_r, Z.div_lt_upper_bound; lia. }
  lia.
Qed.

Lemma _bcd_to_string_arith (b : Z) :
  _bcd_to_string b = str ((b / 16) mod 16 * 10 + b mod 16).
Proof.
  unfold _bcd_to_string. cbv zeta.
  destruct (unpack_nibbles b) as [-> ->]. reflexivity.
Qed.

Lemma _bcd_to_string_byte (b : Z) :
  is_byte b -> _bcd_to_string b = bcd_decimal b.
Proof.
  intros Hb. rewrite _bcd_to_string_arith, (Z.mod_small (b / 16)); [reflexivity|].
  unfold is_byte in Hb.
  split; [apply Z.div_pos; lia|apply Z.div_lt_upper_bound; lia].
Qed.

(** C2.  For every integer [v] from 0 to 99, [_int_to_bcd v] returns a
    byte, and [_bcd_to_string] of that byte is the base-10 string of [v]:
    encoding then decoding gives back the decimal text. *)
Theorem bcd_round_trip (v : Z) :
  0 <= v <= 99 ->
  exists bcd, _int_to_bcd v = Ok bcd /\ _bcd_to_string bcd = str v.
Proof.
  intros Hv. exists (16 * (v / 10) + v mod 10). split.
  - now apply _int_to_bcd_in_range.
  - rewrite _bcd_to_string_arith. f_equal.
    pose proof (Z.mod_pos_bound v 10 ltac:(lia)) as Hu.
    assert (Ht : 0 <= v / 10 <= 9).
    { split; [apply Z.div_pos; lia|].
      apply Z.lt_succ_r, Z.div_lt_upper_bound; lia. }
    replace ((16 * (v / 10) + v mod 10) / 16) with (v / 10)
      by (apply Z.div_unique with (v mod 10); lia).
    replace ((16 * (v / 10) + v mod 10) mod 16) with (v mod 10)
      by (apply Z.mod_unique with (v / 10); lia).
    rewrite (Z.mod_small (v / 10)) by lia.
    pose proof (Z.div_mod v 10 ltac:(lia)). lia.
Qed.

Lemma bcd_round_trip_59 :
  exists bcd, _int_to_bcd 59 = Ok bcd /\ _bcd_to_string bcd = str 59.
Proof. apply (bcd_round_trip 59). lia. Defined.

(** C6.  Outside 0..99 [_int_to_bcd] raises [ValueError] (the value is
    not truncated); inside it returns [(v // 10) << 4 | (v % 10)], which
    is the number [16 * (v / 10) + v mod 10] and fits a byte; 0, 59 and
    99 encode to 0x00, 0x59 and 0x99. *)
Theorem int_to_bcd_spec :
  (forall v, v < 0 \/ 99 < v ->
             exists msg, _int_to_bcd v = Raise (ValueError msg))
  /\ (forall v, 0 <= v <= 99 ->
                _int_to_bcd v = Ok (Z.lor (Z.shiftl (v / 10) 4) (v mod 10))
                /\ Z.lor (Z.shiftl (v / 10) 4) (v mod 10) = 16 * (v / 10) + v mod 10
                /\ is_byte (Z.lor (Z.shiftl (v / 10) 4) (v mod 10)))
  /\ _int_to_bcd 0 = Ok 0x00
  /\ _int_to_bcd 59 = Ok 0x59
  /\ _int_to_bcd 99 = Ok 0x99.
Proof.
  split; [|split; [|repeat split; reflexivity]].
  - intros v Hv. eexists. now apply _int_to_bcd_out_of_range.
  - intros v Hv.
    assert (Hpack : Z.lor (Z.shiftl (v / 10) 4) (v mod 10) = 16 * (v / 10) + v mod 10).
    { apply pack_nibbles. pose proof (Z.mod_pos_bound v 10). lia. }
    rewrite Hpack. repeat split; try (apply bcd_is_byte; exact Hv).
    now apply _int_to_bcd_in_range.
Qed.

Lemma int_to_bcd_spec_100_and_42 :
  (exists msg, _int_to_bcd 100 = Raise (ValueError msg))
  /\ (exists msg, _int_to_bcd (-1) = Raise (ValueError msg))
  /\ _int_to_bcd 42 = Ok 0x42.
Proof.
  split; [|split].
  - apply (proj1 int_to_bcd_spec 100). lia.
  - apply (proj1 int_to_bcd_spec (-1)). lia.
  - apply (proj1 (proj2 int_to_bcd_spec) 42). lia.
Defined.

(** C9.  [_bcd_to_string] is a total function: for every byte [b],
    nibbles above 9 included, it returns the base-10 string of
    [((b >> 4) & 0xF) * 10 + (b & 0xF)] (tens nibble [b / 16], units
    nibble [b mod 16]) and has no raising path.  A register read whose
    eight sampled bits spell [b] returns that string without raising;
    when they spell 0x47 it returns "47". *)
Theorem bcd_to_string_total (b : Z) :
  is_byte b ->
  _bcd_to_string b = str (Z.land (Z.shiftr b 4) 0xF * 10 + Z.land b 0xF)
  /\ _bcd_to_string b = str (b / 16 * 10 + b mod 16)
  /\ (forall register s rest,
         line s = bits_of b ++ rest ->
         fst (_read_from_regiter register s)
         = Ok (str (Z.land (Z.shiftr b 4) 0xF * 10 + Z.land b 0xF)))
  /\ (forall register s rest,
         line s = bits_of 0x47 ++ rest ->
         fst (_read_from_regiter register s) = Ok "47").
Proof.
  intros Hb. split; [reflexivity|]. split; [|split].
  - now apply _bcd_to_string_byte.
  - intros register s rest Hline.
    now rewrite (_read_from_regiter_run register b s rest Hb Hline).
  - intros register s rest Hline.
    rewrite (_read_from_regiter_run register 0x47 s rest); [reflexivity| |exact Hline].
    unfold is_byte; lia.
Qed.

Lemma bcd_to_string_total_0xAB :
  _bcd_to_string 0xAB = "111"
  /\ fst (_read_from_regiter RTC_SEC_READ (mkBoard [] (bits_of 0xAB))) = Ok "111".
Proof.
  assert (Hb : is_byte 0xAB) by (unfold is_byte; lia).
  destruct (bcd_to_string_total 0xAB Hb) as (Hstr & _ & Hread & _).
  split.
  - exact Hstr.
  - apply (Hread RTC_SEC_READ (mkBoard [] (bits_of 0xAB)) []).
    cbn [line]. now rewrite app_nil_r.
Defined.

(** ** Chip-select and pin projections *)

Lemma levels_driven_app (p : pin) (evs evs' : list event) :
  levels_driven p (evs ++ evs') = levels_driven p evs ++ levels_driven p evs'.
Proof. unfold levels_driven. apply flat_map_app. Qed.

Lemma levels_driven_cs_transaction (t : transaction) :
  levels_driven cs_rst (transaction_events t) = [1; 0].
Proof. destruct t; reflexivity. Qed.

Lemma levels_driven_cs_transactions (ts : list transaction) :
  levels_driven cs_rst (flat_map transaction_events ts)
  = flat_map (fun _ => [1; 0]) ts.
Proof.
  induction ts as [|t ts IH]; [reflexivity|].
  cbn [flat_map]. now rewrite levels_driven_app, levels_driven_cs_transaction, IH.
Qed.

(** C4.  For every byte [b], [_write_byte b] makes the data pin an
    output and then, for the eight bits of [b] from bit 0 to bit 7, sets
    the data pin to the bit and pulses the clock once (1 then 0): the
    levels put on the data pin are the bits of [b] least significant
    first (they add up to [b] again), and the clock sees eight pulses.
    Writing 0b10000000 puts 0,0,0,0,0,0,0,1 on the data pin. *)
Theorem write_byte_lsb_first :
  (forall b s, is_byte b ->
     exists evs,
       _write_byte b s = (Ok tt, extend s evs)
       /\ evs = Init dio OUT
                 :: flat_map (fun bit => [Drive dio (Z.b2z bit); Drive clk 1; Drive clk 0])
                      [Z.testbit b 0; Z.testbit b 1; Z.testbit b 2; Z.testbit b 3;
                       Z.testbit b 4; Z.testbit b 5; Z.testbit b 6; Z.testbit b 7]
       /\ byte_of_bits (levels_driven dio evs) = b
       /\ levels_driven clk evs = [1; 0; 1; 0; 1; 0; 1; 0; 1; 0; 1; 0; 1; 0; 1; 0])
  /\ (forall s, exists evs,
         _write_byte 0x80 s = (Ok tt, extend s evs)
         /\ levels_driven dio evs = [0; 0; 0; 0; 0; 0; 0; 1]).
Proof.
  split.
  - intros b s Hb. exists (write_byte_events b).
    split; [apply _write_byte_run|]. split; [reflexivity|]. split; [|reflexivity].
    rewrite <- (byte_of_bits_of b Hb) at 2. reflexivity.
  - intros s. exists (write_byte_events 0x80).
    split; [apply _write_byte_run|reflexivity].
Qed.

Lemma write_byte_lsb_first_0xA5 :
  exists evs,
    _write_byte 0xA5 (mkBoard [] []) = (Ok tt, mkBoard evs [])
    /\ levels_driven dio evs = [1; 0; 1; 0; 0; 1; 0; 1].
Proof.
  assert (Hb : is_byte 0xA5) by (unfold is_byte; lia).
  destruct (proj1 write_byte_lsb_first 0xA5 (mkBoard [] []) Hb)
    as (evs & Hrun & Hevs & _).
  exists evs. split; [exact Hrun|]. rewrite Hevs. reflexivity.
Defined.

(** ** Per-field reads *)

Lemma readYear_run (b : Z) (s : board) (rest : list bool) :
  is_byte b ->
  line s = bits_of b ++ rest ->
  readYear s
  = (Ok ("20" ++ _bcd_to_string b)%string,
     mkBoard (trace s ++ transaction_events (RegRead RTC_YEAR_READ b)) rest).
Proof.
  intros Hb Hline. unfold readYear.
  erewrite bind_Ok by (apply (_read_from_regiter_run _ b _ rest Hb Hline)).
  reflexivity.
Qed.

Lemma well_formed_read (register b : Z) :
  is_byte register -> is_byte b -> Forall well_formed [RegRead register b].
Proof. intros Hr Hb. constructor; [split; assumption|constructor]. Qed.

(** C7.  When the eight bits sampled during the year read spell the byte
    [b], [readYear] issues one read transaction on the year register
    (0x8D) and returns "20" followed by the BCD-decoded decimal string of
    [b]; for [b] = 0x24 the result is "2024". *)
Theorem readYear_prefix :
  (forall b s rest,
     is_byte b ->
     line s = bits_of b ++ rest ->
     exists evs,
       readYear s
       = (Ok ("20" ++ str (Z.land (Z.shiftr b 4) 0xF * 10 + Z.land b 0xF))%string,
          mkBoard (trace s ++ evs) rest)
       /\ transactions evs = Some [RegRead RTC_YEAR_READ b])
  /\ (forall s rest,
         line s = bits_of 0x24 ++ rest ->
         fst (readYear s) = Ok "2024").
Proof.
  split.
  - intros b s rest Hb Hline.
    exists (transaction_events (RegRead RTC_YEAR_READ b)).
    split; [now apply readYear_run|].
    rewrite <- (app_nil_r (transaction_events _)).
    apply (transactions_events [RegRead RTC_YEAR_READ b]).
    apply well_formed_read; [unfold is_byte, RTC_YEAR_READ; lia|exact Hb].
  - intros s rest Hline.
    rewrite (readYear_run 0x24 s rest); [reflexivity| |exact Hline].
    unfold is_byte; lia.
Qed.

Lemma readYear_prefix_0x99 :
  fst (readYear (mkBoard [] (bits_of 0x99))) = Ok "2099".
Proof.
  assert (Hb : is_byte 0x99) by (unfold is_byte; lia).
  destruct (proj1 readYear_prefix 0x99 (mkBoard [] (bits_of 0x99)) [] Hb)
    as (evs & Hrun & _).
  - cbn [line]. now rewrite app_nil_r.
  - rewrite Hrun. reflexivity.
Defined.

(** C8.  When the bits sampled during the seven reads spell the bytes
    [bd], [bm], [by], [bh], [bmin], [bs], [bw], [getDate] issues seven
    separate read transactions, on the day, month, year, hour, minute,
    second and weekday registers in that order, and returns
    "Date: D.M.20Y, H:Min:S, Day: W" where each field is the decimal
    string of the BCD-decoded byte. *)
Theorem getDate_format (bd bm byr bh bmin bs bw : Z) (s : board) (rest : list bool) :
  is_byte bd -> is_byte bm -> is_byte byr -> is_byte bh ->
  is_byte bmin -> is_byte bs -> is_byte bw ->
  line s = bits_of bd ++ bits_of bm ++ bits_of byr ++ bits_of bh
             ++ bits_of bmin ++ bits_of bs ++ bits_of bw ++ rest ->
  exists evs,
    getDate s
    = (Ok ("Date: " ++ bcd_decimal bd ++ "." ++ bcd_decimal bm ++ "."
             ++ "20" ++ bcd_decimal byr ++ ", " ++ bcd_decimal bh ++ ":"
             ++ bcd_decimal bmin ++ ":" ++ bcd_decimal bs
             ++ ", Day: " ++ bcd_decimal bw)%string,
       mkBoard (trace s ++ evs) rest)
    /\ transactions evs
       = Some [RegRead RTC_DAY_OF_THE_MONTH_READ bd;
               RegRead RTC_MONTH_READ bm;
               RegRead RTC_YEAR_READ byr;
               RegRead RTC_HOUR_READ bh;
               RegRead RTC_MIN_READ bmin;
               RegRead RTC_SEC_READ bs;
               RegRead RTC_DAY_OF_THE_WEEK_READ bw]
    /\ levels_driven cs_rst evs = [1; 0; 1; 0; 1; 0; 1; 0; 1; 0; 1; 0; 1; 0].
Proof.
  intros Hd Hm Hy Hh Hmin Hs Hw Hline.
  exists (flat_map transaction_events
            [RegRead RTC_DAY_OF_THE_MONTH_READ bd;
             RegRead RTC_MONTH_READ bm;
             RegRead RTC_YEAR_READ byr;
             RegRead RTC_HOUR_READ bh;
             RegRead RTC_MIN_READ bmin;
             RegRead RTC_SEC_READ bs;
             RegRead RTC_DAY_OF_THE_WEEK_READ bw]).
  split; [|split].
  - unfold getDate, readDayOfTheMonth, readMonth, readHours, readMinutes,
      readSeconds, readDayOfTheWeek.
    erewrite bind_Ok by (eapply _read_from_regiter_run; [exact Hd|exact Hline]).
    erewrite bind_Ok by (eapply _read_from_regiter_run; [exact Hm|reflexivity]).
    erewrite bind_Ok by (eapply readYear_run; [exact Hy|reflexivity]).
    erewrite bind_Ok by (eapply _read_from_regiter_run; [exact Hh|reflexivity]).
    erewrite bind_Ok by (eapply _read_from_regiter_run; [exact Hmin|reflexivity]).
    erewrite bind_Ok by (eapply _read_from_regiter_run; [exact Hs|reflexivity]).
    erewrite bind_Ok by (eapply _read_from_regiter_run; [exact Hw|reflexivity]).
    unfold ret. cbn [trace flat_map]. rewrite <- !app_assoc, app_nil_r.
    now rewrite !_bcd_to_string_byte by assumption.
  - apply transactions_events.
    repeat (constructor; [split; [unfold is_byte; cbv; intuition discriminate|assumption]|]).
    constructor.
  - rewrite levels_driven_cs_transactions. reflexivity.
Qed.

Lemma getDate_format_example :
  fst (getDate (mkBoard [] (bits_of 0x03 ++ bits_of 0x02 ++ bits_of 0x24
                              ++ bits_of 0x15 ++ bits_of 0x47 ++ bits_of 0x30
                              ++ bits_of 0x06 ++ [])))
  = Ok "Date: 3.2.2024, 15:47:30, Day: 6".
Proof.
  assert (Hb : forall b, (0 <=? b) && (b <? 256) = true -> is_byte b)
    by (intros b H; apply andb_true_iff in H; unfold is_byte; lia).
  destruct (getDate_format 0x03 0x02 0x24 0x15 0x47 0x30 0x06
              (mkBoard [] (bits_of 0x03 ++ bits_of 0x02 ++ bits_of 0x24
                             ++ bits_of 0x15 ++ bits_of 0x47 ++ bits_of 0x30
                             ++ bits_of 0x06 ++ [])) []
              (Hb 0x03 eq_refl) (Hb 0x02 eq_refl) (Hb 0x24 eq_refl)
              (Hb 0x15 eq_refl) (Hb 0x47 eq_refl) (Hb 0x30 eq_refl)
              (Hb 0x06 eq_refl) eq_refl)
    as (evs & Hrun & _).
  rewrite Hrun. reflexivity.
Defined.

(** ** The year string *)

Lemma uint_take_Nil (m : nat) : uint_take m Decimal.Nil = Decimal.Nil.
Proof. now destruct m. Qed.

Lemma substring_of_uint (d : Decimal.uint) :
  forall n m,
  substring n m (NilEmpty.string_of_uint d)
  = NilEmpty.string_of_uint (uint_take m (uint_drop n d)).
Proof.
  induction d; intros [|n] [|m]; cbn; try reflexivity;
    try (rewrite (IHd 0%nat m); reflexivity); apply IHd.
Qed.

Lemma nb_digits_drop (n : nat) :
  forall d, Decimal.nb_digits (uint_drop n d) = (Decimal.nb_digits d - n)%nat.
Proof.
  induction n as [|n IH]; intros d.
  - cbn. lia.
  - destruct d; cbn [uint_drop Decimal.nb_digits]; try apply IH. reflexivity.
Qed.

Lemma nb_digits_take (m : nat) :
  forall d, Decimal.nb_digits (uint_take m d) = Nat.min m (Decimal.nb_digits d).
Proof.
  induction m as [|m IH]; intros d; [reflexivity|].
  destruct d; cbn [uint_take Decimal.nb_digits Nat.min]; try (now rewrite IH).
  reflexivity.
Qed.

Lemma string_of_uint_length (d : Decimal.uint) :
  String.length (NilEmpty.string_of_uint d) = Decimal.nb_digits d.
Proof. induction d; cbn; congruence. Qed.

(** [int] of one or two printed digits is a number from 0 to 99; of no
    digit at all it raises. *)
Lemma int_of_short_digits (d : Decimal.uint) :
  (Decimal.nb_digits d <= 2)%nat ->
  match int_of_str (NilEmpty.string_of_uint d) with
  | Ok y => 0 <= y <= 99 /\ d <> Decimal.Nil
  | Raise _ => d = Decimal.Nil
  end.
Proof.
  intros Hlen.
  destruct d as [|d|d|d|d|d|d|d|d|d|d]; [reflexivity|..];
    (destruct d as [|d|d|d|d|d|d|d|d|d|d];
     [cbn; split; [lia|discriminate]|..];
     (destruct d; [cbn; split; [lia|discriminate]|..]; cbn in Hlen; lia)).
Qed.

(** Fewer than [k] digits means less than [10^k], for the two sizes the
    slice cares about. *)
Lemma short_uint_small (d : Decimal.uint) :
  ((Decimal.nb_digits d <= 1)%nat -> (Pos.of_uint d < 10)%N)
  /\ ((Decimal.nb_digits d <= 2)%nat -> (Pos.of_uint d < 100)%N).
Proof.
  destruct d as [|d|d|d|d|d|d|d|d|d|d]; [split; reflexivity|..];
    (destruct d as [|d|d|d|d|d|d|d|d|d|d];
     [split; reflexivity|..];
     (split; [cbn; lia|]; destruct d; [reflexivity|..]; cbn; lia)).
Qed.

Lemma str_pos (p : positive) :
  str (Z.pos p) = NilEmpty.string_of_uint (Pos.to_uint p).
Proof.
  unfold str. cbn [Z.to_int NilZero.string_of_int]. unfold NilZero.string_of_uint.
  pose proof (DecimalPos.Unsigned.to_uint_nonnil p) as Hnil.
  destruct (Pos.to_uint p); [contradiction|reflexivity..].
Qed.

Lemma str_neg (p : positive) :
  str (Z.neg p) = String "-" (NilEmpty.string_of_uint (Pos.to_uint p)).
Proof.
  unfold str. cbn [Z.to_int NilZero.string_of_int]. unfold NilZero.string_of_uint.
  pose proof (DecimalPos.Unsigned.to_uint_nonnil p) as Hnil.
  destruct (Pos.to_uint p); [contradiction|reflexivity..].
Qed.

(** The slice [2:4] of the printed year, as digits of the year. *)
Lemma year_slice (year : Z) :
  slice 2 4 (str year)
  = match year with
    | 0 => ""
    | Z.pos p =>
        NilEmpty.string_of_uint (uint_take 2 (uint_drop 2 (Pos.to_uint p)))
    | Z.neg p =>
        NilEmpty.string_of_uint (uint_take 2 (uint_drop 1 (Pos.to_uint p)))
    end.
Proof.
  unfold slice. destruct year as [|p|p].
  - reflexivity.
  - rewrite str_pos. apply substring_of_uint.
  - rewrite str_neg. cbn [Nat.sub substring]. apply substring_of_uint.
Qed.

Lemma prepare_short_year_raises (year : Z) :
  -10 < year < 100 ->
  exists msg, _prepare_year_for_save year = Raise (ValueError msg).
Proof.
  intros Hyear.
  pose (raises := fun z => match _prepare_year_for_save z with
                          | Raise _ => true
                          | Ok _ => false
                          end).
  assert (Hraises : raises year = true)
    by (apply (range_cases (-9) 109 raises); [vm_compute; reflexivity|lia]).
  unfold raises in Hraises.
  destruct (_prepare_year_for_save year) as [y|[msg]]; [discriminate|].
  now exists msg.
Qed.

(** What [_prepare_year_for_save] does on every integer: it succeeds
    exactly on [year >= 100] and [year <= -10], with a result from 0 to
    99, and raises in between. *)
Lemma prepare_year_cases (year : Z) :
  match _prepare_year_for_save year with
  | Ok y => 0 <= y <= 99 /\ (100 <= year \/ year <= -10)
  | Raise _ => -10 < year < 100
  end.
Proof.
  destruct (Z_lt_le_dec (-10) year) as [Hlo|Hlo];
    [destruct (Z_lt_le_dec year 100) as [Hhi|Hhi]|].
  - destruct (prepare_short_year_raises year) as [msg ->]; lia.
  - unfold _prepare_year_for_save. cbv zeta. rewrite year_slice.
    destruct year as [|p|p]; try lia.
    pose proof (int_of_short_digits (uint_take 2 (uint_drop 2 (Pos.to_uint p)))) as H.
    rewrite nb_digits_take in H. specialize (H (Nat.le_min_l _ _)).
    destruct (int_of_str _) as [y|e]; [intuition lia|].
    apply (f_equal Decimal.nb_digits) in H.
    rewrite nb_digits_take, nb_digits_drop in H. cbn [Decimal.nb_digits] in H.
    pose proof (proj2 (short_uint_small (Pos.to_uint p)) ltac:(lia)) as Hsmall.
    rewrite DecimalPos.Unsigned.of_to in Hsmall. lia.
  - unfold _prepare_year_for_save. cbv zeta. rewrite year_slice.
    destruct year as [|p|p]; try lia.
    pose proof (int_of_short_digits (uint_take 2 (uint_drop 1 (Pos.to_uint p)))) as H.
    rewrite nb_digits_take in H. specialize (H (Nat.le_min_l _ _)).
    destruct (int_of_str _) as [y|e]; [intuition lia|].
    apply (f_equal Decimal.nb_digits) in H.
    rewrite nb_digits_take, nb_digits_drop in H. cbn [Decimal.nb_digits] in H.
    pose proof (proj1 (short_uint_small (Pos.to_uint p)) ltac:(lia)) as Hsmall.
    rewrite DecimalPos.Unsigned.of_to in Hsmall. lia.
Qed.

Lemma prepare_year_range (year y : Z) :
  _prepare_year_for_save year = Ok y -> 0 <= y <= 99.
Proof.
  intros H. pose proof (prepare_year_cases year) as Hc.
  rewrite H in Hc. tauto.
Qed.

Lemma prepare_long_year_ok (year : Z) :
  100 <= year \/ year <= -10 ->
  exists y, _prepare_year_for_save year = Ok y /\ 0 <= y <= 99.
Proof.
  intros Hyear. pose proof (prepare_year_cases year) as Hc.
  destruct (_prepare_year_for_save year) as [y|e]; [|lia].
  exists y. tauto.
Qed.

(** A four-digit year is saved as its last two digits. *)
Lemma prepare_four_digit_year (year : Z) :
  1000 <= year <= 9999 ->
  _prepare_year_for_save year = Ok (year mod 100).
Proof.
  intros Hyear.
  pose (last_two := fun z => match _prepare_year_for_save z with
                            | Ok y => y =? z mod 100
                            | Raise _ => false
                            end).
  assert (Hok : last_two year = true)
    by (apply (range_cases 1000 (Z.to_nat 9000) last_two); [vm_compute; reflexivity|lia]).
  unfold last_two in Hok.
  destruct (_prepare_year_for_save year) as [y|e]; [|discriminate].
  apply Z.eqb_eq in Hok. now subst.
Qed.

Lemma str_length_long_year (year : Z) :
  100 <= year \/ year <= -10 -> (3 <= String.length (str year))%nat.
Proof.
  intros Hyear. destruct year as [|p|p]; try lia.
  - rewrite str_pos, string_of_uint_length.
    destruct (Nat.le_gt_cases (Decimal.nb_digits (Pos.to_uint p)) 2) as [Hs|Hs]; [|lia].
    pose proof (proj2 (short_uint_small (Pos.to_uint p)) Hs) as Hsmall.
    rewrite DecimalPos.Unsigned.of_to in Hsmall. lia.
  - rewrite str_neg. cbn [String.length]. rewrite string_of_uint_length.
    destruct (Nat.le_gt_cases (Decimal.nb_digits (Pos.to_uint p)) 1) as [Hs|Hs]; [|lia].
    pose proof (proj1 (short_uint_small (Pos.to_uint p)) Hs) as Hsmall.
    rewrite DecimalPos.Unsigned.of_to in Hsmall. lia.
Qed.

(** ** Per-field writes *)

Lemma protected_write_well_formed (register bcd : Z) :
  is_byte register -> is_byte bcd ->
  Forall well_formed (protected_write register bcd).
Proof.
  intros Hr Hb. unfold protected_write, RTC_REG_WRITE_PROTECTION.
  repeat (constructor; [split; first [assumption|unfold is_byte; lia]|]).
  constructor.
Qed.

Lemma unlock_then_write_transactions (register v : Z) (s : board) :
  is_byte register -> 0 <= v <= 99 ->
  exists evs,
    _unlock_then_write register v s = (Ok tt, extend s evs)
    /\ transactions evs = Some (protected_write register (16 * (v / 10) + v mod 10))
    /\ levels_driven cs_rst evs = [1; 0; 1; 0; 1; 0].
Proof.
  intros Hr Hv.
  exists (flat_map transaction_events
            (protected_write register (16 * (v / 10) + v mod 10))).
  split; [|split].
  - apply _unlock_then_write_run. now apply _int_to_bcd_in_range.
  - apply transactions_events, protected_write_well_formed;
      [assumption|now apply bcd_is_byte].
  - now rewrite levels_driven_cs_transactions.
Qed.

(** C3.  Each per-field write with a value from 0 to 99 issues exactly
    three register transactions, in this order: write-protect register
    with 0, the field's write address with the BCD value, write-protect
    register with 0x80.  The chip-select line goes 1,0,1,0,1,0: each
    transaction has its own select window and the windows do not overlap.
    [writeYear] does the same with the number it extracts from the year.
    [writeSeconds 30] issues (0x8E,0), (0x80,0x30), (0x8E,0x80). *)
Theorem field_write_three_transactions :
  (forall write address, In (write, address) field_writers ->
     forall v s, 0 <= v <= 99 ->
     exists evs,
       write v s = (Ok tt, extend s evs)
       /\ transactions evs
          = Some [RegWrite RTC_REG_WRITE_PROTECTION 0;
                  RegWrite address (16 * (v / 10) + v mod 10);
                  RegWrite RTC_REG_WRITE_PROTECTION 0x80]
       /\ levels_driven cs_rst evs = [1; 0; 1; 0; 1; 0])
  /\ (forall year y s, _prepare_year_for_save year = Ok y ->
     exists evs,
       writeYear year s = (Ok tt, extend s evs)
       /\ transactions evs
          = Some [RegWrite RTC_REG_WRITE_PROTECTION 0;
                  RegWrite RTC_YEAR_WRITE (16 * (y / 10) + y mod 10);
                  RegWrite RTC_REG_WRITE_PROTECTION 0x80]
       /\ levels_driven cs_rst evs = [1; 0; 1; 0; 1; 0])
  /\ (forall s, exists evs,
         writeSeconds 30 s = (Ok tt, extend s evs)
         /\ transactions evs
            = Some [RegWrite 0x8E 0; RegWrite 0x80 0x30; RegWrite 0x8E 0x80]).
Proof.
  split; [|split].
  - intros write address Hin v s Hv.
    cbn [In field_writers] in Hin.
    repeat (destruct Hin as [Hin|Hin];
            [injection Hin as <- <-;
             apply unlock_then_write_transactions; [unfold is_byte; cbv; intuition discriminate|exact Hv]|]).
    contradiction.
  - intros year y s Hy. unfold writeYear.
    erewrite bind_Ok by (unfold lift; rewrite Hy; reflexivity).
    apply unlock_then_write_transactions;
      [unfold is_byte; cbv; intuition discriminate|now apply prepare_year_range with year].
  - intros s.
    destruct (unlock_then_write_transactions RTC_SEC_WRITE 30 s) as (evs & Hrun & Hts & _);
      [unfold is_byte, RTC_SEC_WRITE; lia|lia|].
    exists evs. split; [exact Hrun|exact Hts].
Qed.

Lemma field_write_three_transactions_examples :
  (exists evs,
     writeHours 23 (mkBoard [] []) = (Ok tt, mkBoard evs [])
     /\ transactions evs
        = Some [RegWrite 0x8E 0; RegWrite 0x84 0x23; RegWrite 0x8E 0x80])
  /\ (exists evs,
        writeYear 2024 (mkBoard [] []) = (Ok tt, mkBoard evs [])
        /\ transactions evs
           = Some [RegWrite 0x8E 0; RegWrite 0x8C 0x24; RegWrite 0x8E 0x80]).
Proof.
  split.
  - destruct (proj1 field_write_three_transactions writeHours RTC_HOUR_WRITE
                ltac:(cbn; tauto) 23 (mkBoard [] []) ltac:(lia))
      as (evs & Hrun & Hts & _).
    exists evs. split; [exact Hrun|exact Hts].
  - destruct (proj1 (proj2 field_write_three_transactions) 2024 24 (mkBoard [] [])
                eq_refl)
      as (evs & Hrun & Hts & _).
    exists evs. split; [exact Hrun|exact Hts].
Defined.

(** C10, as the code has it.  For every year with 0 < year < 100,
    [writeYear] raises [ValueError] and the board is untouched: no
    register transaction is issued.  Only years whose decimal string has
    at least three characters reach the BCD-encode-and-write path; these
    are the years [>= 100] and, because the minus sign takes a position
    of the string, the years [<= -10]. *)
Theorem writeYear_short_year_raises :
  (forall year s, 0 < year < 100 ->
     exists msg, writeYear year s = (Raise (ValueError msg), s))
  /\ (forall year y, _prepare_year_for_save year = Ok y ->
       (3 <= String.length (str year))%nat /\ (100 <= year \/ year <= -10)).
Proof.
  split.
  - intros year s Hyear.
    destruct (prepare_short_year_raises year) as [msg Hmsg]; [lia|].
    exists msg. unfold writeYear. apply bind_Raise.
    unfold lift. now rewrite Hmsg.
  - intros year y Hy. pose proof (prepare_year_cases year) as Hc.
    rewrite Hy in Hc. destruct Hc as [_ Hc].
    split; [now apply str_length_long_year|exact Hc].
Qed.

Lemma writeYear_short_year_raises_24_and_2024 :
  (exists msg, writeYear 24 (mkBoard [] []) = (Raise (ValueError msg), mkBoard [] []))
  /\ (3 <= String.length (str 2024))%nat.
Proof.
  split.
  - apply (proj1 writeYear_short_year_raises 24 (mkBoard [] [])). lia.
  - apply (proj2 writeYear_short_year_raises 2024 24). reflexivity.
Defined.

(** C10 as worded fails: the year -12 has two decimal digits, yet
    [writeYear (-12)] reaches the write path and stores 0x02, so it is
    not true that only years of at least three decimal digits do. *)
Lemma writeYear_two_digit_negative_year_is_written :
  decimal_digits (-12) = 2%nat
  /\ (exists evs,
        writeYear (-12) (mkBoard [] []) = (Ok tt, mkBoard evs [])
        /\ transactions evs
           = Some [RegWrite 0x8E 0; RegWrite 0x8C 0x02; RegWrite 0x8E 0x80])
  /\ ~ (forall year y, _prepare_year_for_save year = Ok y ->
                       (3 <= decimal_digits year)%nat).
Proof.
  split; [reflexivity|]. split.
  - eexists. split; [vm_compute; reflexivity|vm_compute; reflexivity].
  - intros H. specialize (H (-12) 2 eq_refl). vm_compute in H. lia.
Qed.

(** ** setDate *)

(** The conditions of [setDate] as Python evaluates them: the day,
    month and weekday conditions only test [> 0]; the hour, minute and
    second conditions compare the argument with itself and are never
    true. *)
Lemma setDate_conditions (x hi : Z) :
  ((Z.land x x >? Z.land 0 x) && (Z.land 0 x <? hi) = (x >? 0) && (0 <? hi))
  /\ (Z.land x x >? Z.land (-1) x) && (Z.land (-1) x <? hi) = false.
Proof.
  rewrite Z.land_diag, Z.land_0_l, Z.land_m1_l. split; [reflexivity|].
  rewrite Z.gtb_ltb, Z.ltb_irrefl. reflexivity.
Qed.

(** [setDate] is, on every input, day, month, year and weekday writes
    guarded by [> 0]; the hour, minute and second arguments are never
    used. *)
Lemma setDate_as_evaluated (dayOfTheMonth month year hour minute second dayOfWeek : Z)
      (s : board) :
  setDate dayOfTheMonth month year hour minute second dayOfWeek s
  = (when (dayOfTheMonth >? 0) (writeDayOfTheMonth dayOfTheMonth) ;;
     when (month >? 0) (writeMonth month) ;;
     when (year >? 0) (writeYear year) ;;
     when (dayOfWeek >? 0) (writeDayOfTheWeek dayOfWeek)) s.
Proof.
  unfold setDate.
  rewrite (proj2 (setDate_conditions hour 23)),
    (proj2 (setDate_conditions minute 60)),
    (proj2 (setDate_conditions second 60)),
    (proj1 (setDate_conditions dayOfTheMonth 32)),
    (proj1 (setDate_conditions month 13)),
    (proj1 (setDate_conditions dayOfWeek 8)).
  rewrite Z.land_diag. change (0 <? 32) with true. change (0 <? 13) with true.
  change (0 <? 8) with true. rewrite !andb_true_r.
  unfold bind, when, ret.
  repeat match goal with
         | |- context [match ?c ?st with _ => _ end] =>
             destruct (c st) as [[?|?] ?]
         end; reflexivity.
Qed.

Lemma writeYear_run (year y bcd : Z) (s : board) :
  _prepare_year_for_save year = Ok y ->
  _int_to_bcd y = Ok bcd ->
  writeYear year s
  = (Ok tt, extend s (flat_map transaction_events (protected_write RTC_YEAR_WRITE bcd))).
Proof.
  intros Hy Hbcd. unfold writeYear.
  erewrite bind_Ok by (unfold lift; rewrite Hy; reflexivity).
  now apply _unlock_then_write_run.
Qed.

Section Quiet.

Variable regs : list Z.

Lemma quiet_ret {A} (a : A) : quiet_on regs (ret a).
Proof. intros s. exists []. cbn. now rewrite extend_nil. Qed.

Lemma quiet_lift {A} (r : result A) : quiet_on regs (lift r).
Proof. intros s. exists []. cbn. now rewrite extend_nil. Qed.

Lemma quiet_bind {A B} (m : M A) (k : A -> M B) :
  quiet_on regs m -> (forall a, quiet_on regs (k a)) ->
  quiet_on regs (bind m k).
Proof.
  intros Hm Hk s. destruct (Hm s) as (ts & Hs & Hts).
  unfold bind. destruct (m s) as [[a|e] s1]; cbn [snd] in Hs; subst s1.
  - destruct (Hk a (extend s (flat_map transaction_events ts)))
      as (ts' & Hs' & Hts').
    exists (ts ++ ts'). rewrite Hs', extend_extend, flat_map_app.
    split; [reflexivity|]. apply Forall_app. now split.
  - exists ts. now split.
Qed.

Lemma quiet_when (c : bool) (m : M unit) :
  quiet_on regs m -> quiet_on regs (when c m).
Proof. intros Hm. destruct c; [exact Hm|apply quiet_ret]. Qed.

Hypothesis write_protection_listed : In RTC_REG_WRITE_PROTECTION regs.

Lemma quiet_unlock_then_write (register v : Z) :
  In register regs -> quiet_on regs (_unlock_then_write register v).
Proof.
  intros Hr s. destruct (_int_to_bcd v) as [bcd|e] eqn:Hbcd.
  - exists (protected_write register bcd).
    rewrite (_unlock_then_write_run register v bcd s Hbcd).
    split; [reflexivity|].
    repeat constructor; assumption.
  - exists []. rewrite (_unlock_then_write_raise register v e s Hbcd).
    cbn. now rewrite extend_nil.
Qed.

End Quiet.

(** On every input and every board, whether it returns or raises,
    [setDate] only issues whole write transactions to the write-protect,
    day, month, year and weekday registers: none to hour, minute or
    second. *)
Lemma setDate_never_addresses_time_registers
      (dayOfTheMonth month year hour minute second dayOfWeek : Z) :
  quiet_on setDate_registers
    (setDate dayOfTheMonth month year hour minute second dayOfWeek)
  /\ ~ In RTC_HOUR_WRITE setDate_registers
  /\ ~ In RTC_MIN_WRITE setDate_registers
  /\ ~ In RTC_SEC_WRITE setDate_registers.
Proof.
  split; [|cbv; intuition discriminate].
  assert (Hwp : In RTC_REG_WRITE_PROTECTION setDate_registers) by (cbn; tauto).
  intros s. rewrite setDate_as_evaluated. revert s.
  repeat (apply quiet_bind; [|intros _]); try apply quiet_when;
    unfold writeDayOfTheMonth, writeMonth, writeYear, writeDayOfTheWeek;
    try (apply quiet_unlock_then_write; [exact Hwp|cbn; tauto]).
  apply quiet_bind; [apply quiet_lift|intros y].
  apply quiet_unlock_then_write; [exact Hwp|cbn; tauto].
Qed.

Lemma well_formed_concrete_byte (b : Z) :
  (0 <=? b) && (b <? 256) = true -> is_byte b.
Proof. intros H. apply andb_true_iff in H. unfold is_byte. lia. Qed.

Ltac concrete_well_formed :=
  repeat (constructor;
          [split; apply well_formed_concrete_byte; reflexivity|]);
  constructor.

(** C1, at the input setDate(3, 2, 2024, 25, 47, 30, 6): hour 25, every
    other argument inside its documented range.  The call returns
    normally and issues twelve transactions: the protected writes of
    day, month, year and weekday.  No hour write is issued, and neither
    is the minute write nor the second write, although 47 and 30 pass
    their documented ranges. *)
Theorem setDate_hour25_writes_no_minute_no_second (s : board) :
  exists evs,
    setDate 3 2 2024 25 47 30 6 s = (Ok tt, extend s evs)
    /\ transactions evs
       = Some [RegWrite RTC_REG_WRITE_PROTECTION 0;
               RegWrite RTC_DAY_OF_THE_MONTH_WRITE 0x03;
               RegWrite RTC_REG_WRITE_PROTECTION 0x80;
               RegWrite RTC_REG_WRITE_PROTECTION 0;
               RegWrite RTC_MONTH_WRITE 0x02;
               RegWrite RTC_REG_WRITE_PROTECTION 0x80;
               RegWrite RTC_REG_WRITE_PROTECTION 0;
               RegWrite RTC_YEAR_WRITE 0x24;
               RegWrite RTC_REG_WRITE_PROTECTION 0x80;
               RegWrite RTC_REG_WRITE_PROTECTION 0;
               RegWrite RTC_DAY_OF_THE_WEEK_WRITE 0x06;
               RegWrite RTC_REG_WRITE_PROTECTION 0x80].
Proof.
  eexists. split.
  - rewrite setDate_as_evaluated. cbn [Z.gtb Z.compare Pos.compare when].
    unfold writeDayOfTheMonth, writeMonth, writeDayOfTheWeek.
    erewrite bind_Ok by (apply _unlock_then_write_run; reflexivity).
    erewrite bind_Ok by (apply _unlock_then_write_run; reflexivity).
    erewrite bind_Ok by (apply (writeYear_run 2024 24 0x24); reflexivity).
    erewrite _unlock_then_write_run by reflexivity.
    rewrite !extend_extend, <- !flat_map_app. reflexivity.
  - apply transactions_events. concrete_well_formed.
Qed.

(** C5, at two inputs whose day is outside 0 < d < 32.  With day 32 the
    call returns normally and the day register is written with 0x32: the
    field is not skipped.  With day 100 the call raises [ValueError]
    (from the BCD encoder) before any transaction: the out-of-range
    argument is not skipped silently. *)
Theorem setDate_day_out_of_range (s : board) :
  (exists evs,
     setDate 32 2 2024 15 47 30 6 s = (Ok tt, extend s evs)
     /\ transactions evs
        = Some [RegWrite RTC_REG_WRITE_PROTECTION 0;
                RegWrite RTC_DAY_OF_THE_MONTH_WRITE 0x32;
                RegWrite RTC_REG_WRITE_PROTECTION 0x80;
                RegWrite RTC_REG_WRITE_PROTECTION 0;
                RegWrite RTC_MONTH_WRITE 0x02;
                RegWrite RTC_REG_WRITE_PROTECTION 0x80;
                RegWrite RTC_REG_WRITE_PROTECTION 0;
                RegWrite RTC_YEAR_WRITE 0x24;
                RegWrite RTC_REG_WRITE_PROTECTION 0x80;
                RegWrite RTC_REG_WRITE_PROTECTION 0;
                RegWrite RTC_DAY_OF_THE_WEEK_WRITE 0x06;
                RegWrite RTC_REG_WRITE_PROTECTION 0x80])
  /\ setDate 100 2 2024 15 47 30 6 s
     = (Raise (ValueError "Input must be in the range [0, 99]"), s).
Proof.
  split.
  - eexists. split.
    + rewrite setDate_as_evaluated. cbn [Z.gtb Z.compare Pos.compare when].
      unfold writeDayOfTheMonth, writeMonth, writeDayOfTheWeek.
      erewrite bind_Ok by (apply _unlock_then_write_run; reflexivity).
      erewrite bind_Ok by (apply _unlock_then_write_run; reflexivity).
      erewrite bind_Ok by (apply (writeYear_run 2024 24 0x24); reflexivity).
      erewrite _unlock_then_write_run by reflexivity.
      rewrite !extend_extend, <- !flat_map_app. reflexivity.
    + apply transactions_events. concrete_well_formed.
  - rewrite setDate_as_evaluated. cbn [Z.gtb Z.compare Pos.compare when].
    apply bind_Raise. unfold writeDayOfTheMonth.
    now apply _unlock_then_write_raise.
Qed.

(** * Further properties of the driver *)

(** ** Transport: truncation, sampling, loop-back *)

Lemma bits_of_mod_256 (b : Z) : bits_of (b mod 256) = bits_of b.
Proof.
  unfold bits_of, range. apply map_ext_in. intros i Hi.
  apply in_seq in Hi. change 256 with (2 ^ 8).
  apply Z.mod_pow2_bits_low. lia.
Qed.

Lemma mod_256_is_byte (b : Z) : is_byte (b mod 256).
Proof. unfold is_byte. apply Z.mod_pos_bound. lia. Qed.

Lemma transaction_events_mod_256 (r d : Z) :
  transaction_events (RegWrite r d)
  = transaction_events (RegWrite (r mod 256) (d mod 256)).
Proof.
  cbn [transaction_events].
  unfold write_transaction_events, write_byte_events.
  now rewrite !bits_of_mod_256.
Qed.

(** X1.  [_write_data_to_register] checks neither argument: for any two
    integers it performs one select window (chip-select 1 then 0) with
    sixteen clock pulses, and what the peer receives is the register and
    the data reduced modulo 256. *)
Theorem write_register_sends_low_bytes (register data : Z) (s : board) :
  exists evs,
    _write_data_to_register register data s = (Ok tt, extend s evs)
    /\ transactions evs = Some [RegWrite (register mod 256) (data mod 256)]
    /\ levels_driven cs_rst evs = [1; 0]
    /\ levels_driven clk evs = flat_map (fun _ => [1; 0]) (seq 0 16).
Proof.
  exists (transaction_events (RegWrite register data)).
  split; [apply _write_data_to_register_run|]. split; [|split; reflexivity].
  rewrite transaction_events_mod_256.
  rewrite <- (app_nil_r (transaction_events _)).
  apply (transactions_events [RegWrite (register mod 256) (data mod 256)]).
  constructor; [split; apply mod_256_is_byte|constructor].
Qed.

Lemma eight_bits_are_a_byte (bits : list bool) :
  List.length bits = 8%nat ->
  is_byte (byte_of_bits (map Z.b2z bits))
  /\ bits_of (byte_of_bits (map Z.b2z bits)) = bits
  /\ assemble (range 8) bits 0 = byte_of_bits (map Z.b2z bits).
Proof.
  intros Hlen.
  do 8 (destruct bits as [|? bits]; [discriminate|]).
  destruct bits; [|discriminate].
  repeat match goal with b : bool |- _ => destruct b end;
    (split; [unfold is_byte; cbn; lia|split; reflexivity]).
Qed.

(** X2.  Whatever eight levels the peer presents, [_read_byte] makes the
    data pin an input, samples once before each of eight clock pulses
    and returns the number whose bit [i] is the [i]-th level sampled: a
    value from 0 to 255 that determines the eight levels.  It consumes
    exactly those eight levels and never drives the data pin or the
    chip-select. *)
Theorem read_byte_of_line (bits rest : list bool) (s : board) :
  List.length bits = 8%nat ->
  line s = bits ++ rest ->
  exists v evs,
    _read_byte s = (Ok v, mkBoard (trace s ++ evs) rest)
    /\ evs = Init dio IN
              :: flat_map (fun bit => [Sample dio (Z.b2z bit); Drive clk 1; Drive clk 0]) bits
    /\ v = byte_of_bits (map Z.b2z bits)
    /\ 0 <= v < 256
    /\ bits_of v = bits
    /\ levels_driven dio evs = []
    /\ levels_driven cs_rst evs = [].
Proof.
  intros Hlen Hline.
  destruct (eight_bits_are_a_byte bits Hlen) as (Hbyte & Hbits & Hasm).
  exists (byte_of_bits (map Z.b2z bits)). eexists.
  split; [|split; [reflexivity|]].
  - unfold _read_byte. run_with pin_init_run.
    rewrite (read_loop_run bits _ _ _ rest);
      [|rewrite Hlen; reflexivity|exact Hline].
    rewrite Hasm. cbn [trace extend]. rewrite <- app_assoc. reflexivity.
  - repeat split; try apply Hbyte; try exact Hbits.
    + clear. induction bits as [|bit bits IH]; [reflexivity|exact IH].
    + clear. induction bits as [|bit bits IH]; [reflexivity|exact IH].
Qed.

Lemma read_byte_of_line_example :
  fst (_read_byte (mkBoard [] [true; false; true; false; false; true; false; true; true]))
  = Ok 0xA5.
Proof.
  destruct (read_byte_of_line [true; false; true; false; false; true; false; true]
              [true] (mkBoard [] [true; false; true; false; false; true; false; true; true])
              eq_refl eq_refl)
    as (v & evs & Hrun & _ & Hv & _).
  rewrite Hrun, Hv. reflexivity.
Defined.

(** X3.  Loop-back.  For any integer [b], [_write_byte b] puts on the
    data pin the eight low bits of [b], least significant first, without
    touching chip-select; a [_read_byte] that samples those eight levels
    returns [b mod 256], hence [b] itself when [b] is a byte. *)
Theorem write_read_loopback (b : Z) (s s' : board) (rest : list bool) :
  line s' = bits_of b ++ rest ->
  exists evs,
    _write_byte b s = (Ok tt, extend s evs)
    /\ levels_driven dio evs = map Z.b2z (bits_of b)
    /\ levels_driven cs_rst evs = []
    /\ byte_of_bits (levels_driven dio evs) = b mod 256
    /\ fst (_read_byte s') = Ok (b mod 256).
Proof.
  intros Hline. exists (write_byte_events b).
  split; [apply _write_byte_run|]. split; [reflexivity|]. split; [reflexivity|].
  split.
  - rewrite <- (byte_of_bits_of (b mod 256)) by apply mod_256_is_byte.
    now rewrite bits_of_mod_256.
  - rewrite (_read_byte_run (b mod 256) s' rest); [reflexivity|apply mod_256_is_byte|].
    now rewrite bits_of_mod_256.
Qed.

Lemma write_read_loopback_0x1A5 :
  fst (_read_byte (mkBoard [] (bits_of 0x1A5 ++ []))) = Ok 0xA5.
Proof.
  destruct (write_read_loopback 0x1A5 (mkBoard [] []) (mkBoard [] (bits_of 0x1A5 ++ [])) []
              eq_refl)
    as (evs & _ & _ & _ & _ & Hread).
  exact Hread.
Defined.

(** X4.  In one register transaction the data pin is configured before
    it is used, whatever direction earlier calls left it in: a write
    transaction only drives it as an output and leaves it an output; a
    read transaction drives the command as an output, samples only after
    switching the pin to input, and leaves it an input. *)
Theorem transactions_respect_dio_direction :
  (forall register data s mode, exists evs,
      _write_data_to_register register data s = (Ok tt, extend s evs)
      /\ dio_discipline mode evs = Some (Some OUT))
  /\ (forall register s bits rest mode,
        List.length bits = 8%nat ->
        line s = bits ++ rest ->
        exists text evs,
          _read_from_regiter register s = (Ok text, mkBoard (trace s ++ evs) rest)
          /\ dio_discipline mode evs = Some (Some IN)).
Proof.
  split.
  - intros register data s mode.
    exists (transaction_events (RegWrite register data)).
    split; [apply _write_data_to_register_run|reflexivity].
  - intros register s bits rest mode Hlen Hline.
    destruct (eight_bits_are_a_byte bits Hlen) as (Hbyte & Hbits & _).
    rewrite <- Hbits in Hline.
    do 2 eexists. split.
    + apply (_read_from_regiter_run register _ s rest Hbyte Hline).
    + reflexivity.
Qed.

Lemma transactions_respect_dio_direction_example :
  exists text evs,
    _read_from_regiter RTC_SEC_READ (mkBoard [] (bits_of 0x30 ++ []))
    = (Ok text, mkBoard ([] ++ evs) [])
    /\ dio_discipline None evs = Some (Some IN).
Proof.
  apply (proj2 transactions_respect_dio_direction RTC_SEC_READ
           (mkBoard [] (bits_of 0x30 ++ [])) (bits_of 0x30) [] None);
    reflexivity.
Defined.

(** ** Codec: the other direction, and widths *)

Lemma _bcd_to_string_of_bcd (v : Z) :
  0 <= v <= 99 -> _bcd_to_string (bcd_of v) = str v.
Proof.
  intros Hv. unfold bcd_of. rewrite _bcd_to_string_arith. f_equal.
  pose proof (Z.mod_pos_bound v 10 ltac:(lia)) as Hu.
  assert (Ht : 0 <= v / 10 <= 9).
  { split; [apply Z.div_pos; lia|].
    apply Z.lt_succ_r, Z.div_lt_upper_bound; lia. }
  replace ((16 * (v / 10) + v mod 10) / 16) with (v / 10)
    by (apply Z.div_unique with (v mod 10); lia).
  replace ((16 * (v / 10) + v mod 10) mod 16) with (v mod 10)
    by (apply Z.mod_unique with (v / 10); lia).
  rewrite (Z.mod_small (v / 10)) by lia.
  pose proof (Z.div_mod v 10 ltac:(lia)). lia.
Qed.

Lemma _int_to_bcd_Ok_inv (v bcd : Z) :
  _int_to_bcd v = Ok bcd -> 0 <= v <= 99 /\ bcd = bcd_of v /\ is_byte bcd.
Proof.
  intros H.
  destruct (Z_lt_le_dec v 0) as [Hneg|Hpos];
    [rewrite _int_to_bcd_out_of_range in H by lia; discriminate|].
  destruct (Z_lt_le_dec 99 v) as [Hbig|Hsmall];
    [rewrite _int_to_bcd_out_of_range in H by lia; discriminate|].
  rewrite _int_to_bcd_in_range in H by lia. injection H as <-.
  split; [lia|]. split; [reflexivity|]. apply bcd_is_byte. lia.
Qed.

(** X5.  Decoding then encoding.  For a byte whose two nibbles are
    decimal digits, the text [_bcd_to_string] returns converts back (with
    [int]) to a number from 0 to 99 whose BCD encoding is the byte
    itself: on well-formed bytes the codec loses nothing. *)
Theorem bcd_decode_then_encode (b : Z) :
  is_byte b -> valid_bcd b ->
  exists v,
    int_of_str (_bcd_to_string b) = Ok v
    /\ 0 <= v <= 99
    /\ v = b / 16 * 10 + b mod 16
    /\ _int_to_bcd v = Ok b.
Proof.
  intros Hb [Ht Hu].
  pose (check := fun z =>
                   if (z / 16 <=? 9) && (z mod 16 <=? 9) then
                     match int_of_str (_bcd_to_string z) with
                     | Ok v =>
                         (v =? z / 16 * 10 + z mod 16)
                         && match _int_to_bcd v with
                            | Ok b' => b' =? z
                            | Raise _ => false
                            end
                     | Raise _ => false
                     end
                   else true).
  assert (Hcheck : check b = true)
    by (apply (range_cases 0 256 check); [vm_compute; reflexivity|exact Hb]).
  unfold check in Hcheck.
  destruct (Z.leb_spec (b / 16) 9); [|lia].
  destruct (Z.leb_spec (b mod 16) 9); [|lia]. cbn [andb] in Hcheck.
  destruct (int_of_str (_bcd_to_string b)) as [v|e]; [|discriminate].
  apply andb_true_iff in Hcheck. destruct Hcheck as [Hv Henc].
  apply Z.eqb_eq in Hv.
  destruct (_int_to_bcd v) as [b'|e] eqn:Hb'; [|discriminate].
  apply Z.eqb_eq in Henc. subst b'.
  exists v. repeat split; try assumption; lia.
Qed.

Lemma bcd_decode_then_encode_0x59 :
  exists v, int_of_str (_bcd_to_string 0x59) = Ok v /\ _int_to_bcd v = Ok 0x59.
Proof.
  destruct (bcd_decode_then_encode 0x59) as (v & Hdec & _ & _ & Henc).
  - unfold is_byte. lia.
  - unfold valid_bcd. cbn. lia.
  - exists v. split; assumption.
Defined.

(** X6.  No zero padding.  For a well-formed BCD byte the decoded text
    has one character when the tens nibble is 0 and two otherwise, so a
    field such as minute 5 reads back as "5", not "05". *)
Theorem bcd_to_string_width (b : Z) :
  is_byte b -> valid_bcd b ->
  String.length (_bcd_to_string b) = if b <? 16 then 1%nat else 2%nat.
Proof.
  intros Hb [Ht Hu].
  pose (check := fun z =>
                   if (z / 16 <=? 9) && (z mod 16 <=? 9) then
                     Nat.eqb (String.length (_bcd_to_string z))
                       (if z <? 16 then 1 else 2)
                   else true).
  assert (Hcheck : check b = true)
    by (apply (range_cases 0 256 check); [vm_compute; reflexivity|exact Hb]).
  unfold check in Hcheck.
  destruct (Z.leb_spec (b / 16) 9); [|lia].
  destruct (Z.leb_spec (b mod 16) 9); [|lia]. cbn [andb] in Hcheck.
  now apply Nat.eqb_eq in Hcheck.
Qed.

Lemma bcd_to_string_width_0x05 :
  String.length (_bcd_to_string 0x05) = 1%nat.
Proof.
  apply (bcd_to_string_width 0x05).
  - unfold is_byte. lia.
  - unfold valid_bcd. cbn. lia.
Defined.

(** ** Per-field writes and reads together *)

(** X7.  A per-field write whose value is outside 0..99 raises
    [ValueError] before any pin is touched: the board is unchanged, so
    the write-protect register is not cleared and nothing is half
    written. *)
Theorem field_write_out_of_range_raises :
  forall write address, In (write, address) field_writers ->
  forall v s, v < 0 \/ 99 < v ->
  write v s = (Raise (ValueError "Input must be in the range [0, 99]"), s).
Proof.
  intros write address Hin v s Hv.
  cbn [In field_writers] in Hin.
  repeat (destruct Hin as [Hin|Hin];
          [injection Hin as <- <-;
           apply _unlock_then_write_raise; apply _int_to_bcd_out_of_range;
           exact Hv|]).
  contradiction.
Qed.

Lemma field_write_out_of_range_raises_minutes_100 :
  writeMinutes 100 (mkBoard [] [])
  = (Raise (ValueError "Input must be in the range [0, 99]"), mkBoard [] []).
Proof.
  apply (field_write_out_of_range_raises writeMinutes RTC_MIN_WRITE);
    [cbn; tauto|lia].
Defined.

Lemma unlock_write_then_read (address v : Z) (s s' : board) (rest : list bool) :
  is_byte address -> is_byte (address + 1) -> 0 <= v <= 99 ->
  exists evs,
    _unlock_then_write address v s = (Ok tt, extend s evs)
    /\ transactions evs
       = Some [RegWrite RTC_REG_WRITE_PROTECTION 0;
               RegWrite address (bcd_of v);
               RegWrite RTC_REG_WRITE_PROTECTION 0x80]
    /\ (line s' = bits_of (bcd_of v) ++ rest ->
        exists evs',
          _read_from_regiter (address + 1) s'
          = (Ok (str v), mkBoard (trace s' ++ evs') rest)
          /\ transactions evs' = Some [RegRead (address + 1) (bcd_of v)]).
Proof.
  intros Haddr Hread Hv.
  destruct (unlock_then_write_transactions address v s Haddr Hv)
    as (evs & Hrun & Hts & _).
  exists evs. split; [exact Hrun|]. split; [exact Hts|].
  intros Hline.
  assert (Hstored : is_byte (bcd_of v)) by now apply bcd_is_byte.
  exists (transaction_events (RegRead (address + 1) (bcd_of v))). split.
  - rewrite (_read_from_regiter_run (address + 1) (bcd_of v) s' rest Hstored Hline).
    now rewrite _bcd_to_string_of_bcd.
  - rewrite <- (app_nil_r (transaction_events _)).
    apply (transactions_events [RegRead (address + 1) (bcd_of v)]).
    now apply well_formed_read.
Qed.

(** X8.  Write, then read back.  For each of the six fields and every
    value [v] from 0 to 99: the writer stores the BCD byte of [v] at the
    field's write address; when the chip returns that byte, the reader
    of the same field, which addresses the write address plus one,
    returns the decimal text of [v]. *)
Theorem field_write_then_read (write : Z -> M unit) (read : M string)
        (address v : Z) (s s' : board) (rest : list bool) :
  In (write, read, address) field_table ->
  0 <= v <= 99 ->
  exists evs,
    write v s = (Ok tt, extend s evs)
    /\ transactions evs
       = Some [RegWrite RTC_REG_WRITE_PROTECTION 0;
               RegWrite address (bcd_of v);
               RegWrite RTC_REG_WRITE_PROTECTION 0x80]
    /\ (line s' = bits_of (bcd_of v) ++ rest ->
        exists evs',
          read s' = (Ok (str v), mkBoard (trace s' ++ evs') rest)
          /\ transactions evs' = Some [RegRead (address + 1) (bcd_of v)]).
Proof.
  intros Hin Hv. cbn [In field_table] in Hin.
  repeat (destruct Hin as [Hin|Hin];
          [injection Hin as <- <- <-;
           match goal with
           | |- context [RegWrite ?a (bcd_of v)] =>
               exact (unlock_write_then_read a v s s' rest
                        (well_formed_concrete_byte a eq_refl)
                        (well_formed_concrete_byte (a + 1) eq_refl) Hv)
           end|]).
  contradiction.
Qed.

Lemma field_write_then_read_minutes_47 :
  exists evs',
    readMinutes (mkBoard [] (bits_of 0x47 ++ []))
    = (Ok "47", mkBoard ([] ++ evs') [])
    /\ transactions evs' = Some [RegRead 0x83 0x47].
Proof.
  destruct (field_write_then_read writeMinutes readMinutes RTC_MIN_WRITE 47
              (mkBoard [] []) (mkBoard [] (bits_of 0x47 ++ [])) []
              ltac:(cbn; tauto) ltac:(lia))
    as (evs & _ & _ & Hread).
  exact (Hread eq_refl).
Defined.

(** ** The year *)

(** X9.  [_prepare_year_for_save] on every integer: it returns exactly
    when [year >= 100] or [year <= -10], and then the number is from 0
    to 99, so [writeYear] never fails in the BCD encoder; for every other
    year it raises [ValueError]. *)
Theorem prepare_year_succeeds_iff (year : Z) :
  ((100 <= year \/ year <= -10) <->
   exists y, _prepare_year_for_save year = Ok y)
  /\ (-10 < year < 100 <->
      exists msg, _prepare_year_for_save year = Raise (ValueError msg))
  /\ (forall y, _prepare_year_for_save year = Ok y ->
               0 <= y <= 99 /\ exists bcd, _int_to_bcd y = Ok bcd).
Proof.
  pose proof (prepare_year_cases year) as Hc.
  destruct (_prepare_year_for_save year) as [y|[msg]] eqn:Hy.
  - split; [|split].
    + split; [intros _; now exists y|intros _; tauto].
    + split; [lia|intros [msg' H]; discriminate].
    + intros y' H. injection H as <-. split; [tauto|].
      exists (bcd_of y). apply _int_to_bcd_in_range. tauto.
  - split; [|split].
    + split; [lia|intros [y' H]; discriminate].
    + split; [intros _; now exists msg|intros _; exact Hc].
    + intros y' H. discriminate.
Qed.

Lemma all_from_spec (P : Z -> bool) (n : nat) :
  forall lo, all_from P lo n = true ->
  forall z, lo <= z < lo + Z.of_nat n -> P z = true.
Proof.
  induction n as [|n IH]; intros lo Hall z Hz; [lia|].
  cbn [all_from] in Hall. apply andb_true_iff in Hall. destruct Hall as [Hlo Hall].
  destruct (Z.eq_dec z lo) as [->|Hne]; [exact Hlo|].
  apply (IH (lo + 1) Hall). lia.
Qed.

Lemma prepare_year_succeeds_iff_2024_and_24 :
  (exists y, _prepare_year_for_save 2024 = Ok y)
  /\ (exists msg, _prepare_year_for_save 24 = Raise (ValueError msg)).
Proof.
  split.
  - apply (proj1 (proj1 (prepare_year_succeeds_iff 2024))). lia.
  - apply (proj1 (proj1 (proj2 (prepare_year_succeeds_iff 24)))). lia.
Defined.

(** X10.  Which digits of the year are kept.  The slice takes the third
    and fourth characters of the printed year: a three-digit year keeps
    its last digit only, a four-digit year its last two digits, and a
    five-digit year its hundreds and tens digits, not its last two. *)
Theorem prepare_year_digits (year : Z) :
  (100 <= year <= 999 -> _prepare_year_for_save year = Ok (year mod 10))
  /\ (1000 <= year <= 9999 -> _prepare_year_for_save year = Ok (year mod 100))
  /\ (10000 <= year <= 99999 ->
      _prepare_year_for_save year = Ok (year / 10 mod 100)).
Proof.
  pose (agrees := fun (f : Z -> Z) z =>
                    match _prepare_year_for_save z with
                    | Ok y => y =? f z
                    | Raise _ => false
                    end).
  assert (Hagrees : forall f z, agrees f z = true ->
                                _prepare_year_for_save z = Ok (f z)).
  { intros f z H. unfold agrees in H.
    destruct (_prepare_year_for_save z) as [y|e]; [|discriminate].
    apply Z.eqb_eq in H. now subst. }
  split; [|split]; intros Hyear.
  - apply (Hagrees (fun z => z mod 10)).
    apply (range_cases 100 (Z.to_nat 900)); [vm_compute; reflexivity|lia].
  - now apply prepare_four_digit_year.
  - apply (Hagrees (fun z => z / 10 mod 100)).
    apply (all_from_spec _ (Z.to_nat 90000) 10000); [vm_compute; reflexivity|lia].
Qed.

Lemma prepare_year_digits_examples :
  _prepare_year_for_save 123 = Ok 3
  /\ _prepare_year_for_save 1999 = Ok 99
  /\ _prepare_year_for_save 12345 = Ok 34.
Proof.
  split; [|split].
  - apply (proj1 (prepare_year_digits 123)). lia.
  - apply (proj1 (proj2 (prepare_year_digits 1999))). lia.
  - apply (proj2 (proj2 (prepare_year_digits 12345))). lia.
Defined.

Lemma writeYear_four_digit (year : Z) (s : board) :
  1000 <= year <= 9999 ->
  exists evs,
    writeYear year s = (Ok tt, extend s evs)
    /\ transactions evs
       = Some (protected_write RTC_YEAR_WRITE (bcd_of (year mod 100))).
Proof.
  intros Hyear.
  pose proof (Z.mod_pos_bound year 100 ltac:(lia)) as Hmod.
  exists (flat_map transaction_events
            (protected_write RTC_YEAR_WRITE (bcd_of (year mod 100)))).
  split.
  - apply (writeYear_run year (year mod 100));
      [now apply prepare_four_digit_year|apply _int_to_bcd_in_range; lia].
  - apply transactions_events, protected_write_well_formed;
      [apply well_formed_concrete_byte; reflexivity|apply bcd_is_byte; lia].
Qed.

(** X11.  Year round trip.  For a year from 2010 to 2099, [writeYear]
    stores the BCD byte of its last two digits, and when the chip
    returns that byte [readYear] gives back the decimal text of the
    year. *)
Theorem writeYear_then_readYear (year : Z) (s s' : board) (rest : list bool) :
  2010 <= year <= 2099 ->
  exists evs,
    writeYear year s = (Ok tt, extend s evs)
    /\ transactions evs
       = Some [RegWrite RTC_REG_WRITE_PROTECTION 0;
               RegWrite RTC_YEAR_WRITE (bcd_of (year mod 100));
               RegWrite RTC_REG_WRITE_PROTECTION 0x80]
    /\ (line s' = bits_of (bcd_of (year mod 100)) ++ rest ->
        fst (readYear s') = Ok (str year)).
Proof.
  intros Hyear.
  destruct (writeYear_four_digit year s ltac:(lia)) as (evs & Hrun & Hts).
  exists evs. split; [exact Hrun|]. split; [exact Hts|].
  intros Hline.
  pose proof (Z.mod_pos_bound year 100 ltac:(lia)) as Hmod.
  rewrite (readYear_run (bcd_of (year mod 100)) s' rest);
    [|apply bcd_is_byte; lia|exact Hline].
  cbn [fst]. rewrite _bcd_to_string_of_bcd by lia. f_equal.
  apply String.eqb_eq.
  apply (range_cases 2010 90
           (fun z => String.eqb ("20" ++ str (z mod 100)) (str z)));
    [vm_compute; reflexivity|lia].
Qed.

Lemma writeYear_then_readYear_2024 :
  fst (readYear (mkBoard [] (bits_of 0x24 ++ []))) = Ok "2024".
Proof.
  destruct (writeYear_then_readYear 2024 (mkBoard [] [])
              (mkBoard [] (bits_of 0x24 ++ [])) [] ltac:(lia))
    as (evs & _ & _ & Hread).
  exact (Hread eq_refl).
Defined.

(** X12.  The first decade does not round-trip.  For a year from 2000
    to 2009 [writeYear] stores a byte below 0x10, and when the chip
    returns it [readYear] gives "20" followed by a single digit: a
    three-character text that is not the decimal text of the year
    (2005 comes back as "205"). *)
Theorem writeYear_then_readYear_first_decade (year : Z) (s s' : board)
        (rest : list bool) :
  2000 <= year <= 2009 ->
  exists evs,
    writeYear year s = (Ok tt, extend s evs)
    /\ transactions evs
       = Some [RegWrite RTC_REG_WRITE_PROTECTION 0;
               RegWrite RTC_YEAR_WRITE (year - 2000);
               RegWrite RTC_REG_WRITE_PROTECTION 0x80]
    /\ (line s' = bits_of (year - 2000) ++ rest ->
        fst (readYear s') = Ok ("20" ++ str (year - 2000))%string
        /\ String.length ("20" ++ str (year - 2000)) = 3%nat
        /\ ("20" ++ str (year - 2000))%string <> str year).
Proof.
  intros Hyear.
  destruct (writeYear_four_digit year s ltac:(lia)) as (evs & Hrun & Hts).
  assert (Hstored : bcd_of (year mod 100) = year - 2000).
  { unfold bcd_of.
    replace (year mod 100) with (year - 2000)
      by (apply Z.mod_unique with 20; lia).
    rewrite Z.div_small, Z.mod_small by lia. lia. }
  rewrite Hstored in Hts.
  exists evs. split; [exact Hrun|]. split; [exact Hts|].
  intros Hline.
  rewrite (readYear_run (year - 2000) s' rest);
    [|unfold is_byte; lia|exact Hline].
  cbn [fst].
  pose (check := fun z =>
                   String.eqb (_bcd_to_string (z - 2000)) (str (z - 2000))
                   && Nat.eqb (String.length ("20" ++ str (z - 2000))) 3
                   && negb (String.eqb ("20" ++ str (z - 2000)) (str z))).
  assert (Hcheck : check year = true)
    by (apply (range_cases 2000 10 check); [vm_compute; reflexivity|lia]).
  unfold check in Hcheck.
  apply andb_true_iff in Hcheck. destruct Hcheck as [Hcheck Hne].
  apply andb_true_iff in Hcheck. destruct Hcheck as [Hdec Hlen].
  apply String.eqb_eq in Hdec. apply Nat.eqb_eq in Hlen.
  apply negb_true_iff, String.eqb_neq in Hne.
  rewrite Hdec. repeat split; assumption.
Qed.

Lemma writeYear_then_readYear_first_decade_2005 :
  fst (readYear (mkBoard [] (bits_of 0x05 ++ []))) = Ok "205".
Proof.
  destruct (writeYear_then_readYear_first_decade 2005 (mkBoard [] [])
              (mkBoard [] (bits_of 0x05 ++ [])) [] ltac:(lia))
    as (evs & _ & _ & Hread).
  exact (proj1 (Hread eq_refl)).
Defined.

(** ** setDate on every input *)

Lemma gtb_0 (x : Z) : (x >? 0) = (0 <? x).
Proof. apply Z.gtb_ltb. Qed.

(** X13.  [setDate] never uses its hour, minute and second arguments:
    changing them changes neither the result nor the board, so the time
    of day cannot be set through [setDate]. *)
Theorem setDate_ignores_time_arguments
        (dayOfTheMonth month year dayOfWeek : Z)
        (hour minute second hour' minute' second' : Z) (s : board) :
  setDate dayOfTheMonth month year hour minute second dayOfWeek s
  = setDate dayOfTheMonth month year hour' minute' second' dayOfWeek s.
Proof. now rewrite !setDate_as_evaluated. Qed.

Lemma write_field_run (address v : Z) (s : board) :
  0 <= v <= 99 ->
  _unlock_then_write address v s
  = (Ok tt, extend s (flat_map transaction_events
                        (protected_write address (bcd_of v)))).
Proof.
  intros Hv. apply _unlock_then_write_run. now apply _int_to_bcd_in_range.
Qed.

(** X14.  What a call with usable arguments writes.  When day, month
    and weekday are from 1 to 99 and the year has four digits, [setDate]
    returns normally and issues exactly the protected writes of day,
    month, year (its last two digits) and weekday, in that order, with
    their BCD bytes.  The bounds 32, 13 and 8 written in the conditions
    play no part: day 99, month 99 and weekday 99 are written too. *)
Theorem setDate_writes_calendar_fields
        (dayOfTheMonth month year hour minute second dayOfWeek : Z) (s : board) :
  0 < dayOfTheMonth <= 99 ->
  0 < month <= 99 ->
  1000 <= year <= 9999 ->
  0 < dayOfWeek <= 99 ->
  exists evs,
    setDate dayOfTheMonth month year hour minute second dayOfWeek s
    = (Ok tt, extend s evs)
    /\ transactions evs
       = Some [RegWrite RTC_REG_WRITE_PROTECTION 0;
               RegWrite RTC_DAY_OF_THE_MONTH_WRITE (bcd_of dayOfTheMonth);
               RegWrite RTC_REG_WRITE_PROTECTION 0x80;
               RegWrite RTC_REG_WRITE_PROTECTION 0;
               RegWrite RTC_MONTH_WRITE (bcd_of month);
               RegWrite RTC_REG_WRITE_PROTECTION 0x80;
               RegWrite RTC_REG_WRITE_PROTECTION 0;
               RegWrite RTC_YEAR_WRITE (bcd_of (year mod 100));
               RegWrite RTC_REG_WRITE_PROTECTION 0x80;
               RegWrite RTC_REG_WRITE_PROTECTION 0;
               RegWrite RTC_DAY_OF_THE_WEEK_WRITE (bcd_of dayOfWeek);
               RegWrite RTC_REG_WRITE_PROTECTION 0x80].
Proof.
  intros Hd Hm Hy Hw.
  pose proof (Z.mod_pos_bound year 100 ltac:(lia)) as Hmod.
  eexists. split.
  - rewrite setDate_as_evaluated, !gtb_0.
    rewrite (proj2 (Z.ltb_lt 0 dayOfTheMonth)), (proj2 (Z.ltb_lt 0 month)),
      (proj2 (Z.ltb_lt 0 year)), (proj2 (Z.ltb_lt 0 dayOfWeek)) by lia.
    cbn [when]. unfold writeDayOfTheMonth, writeMonth, writeDayOfTheWeek.
    erewrite bind_Ok by (apply write_field_run; lia).
    erewrite bind_Ok by (apply write_field_run; lia).
    erewrite bind_Ok
      by (apply (writeYear_run year (year mod 100) (bcd_of (year mod 100)));
          [now apply prepare_four_digit_year|apply _int_to_bcd_in_range; lia]).
    erewrite write_field_run by lia.
    rewrite !extend_extend, <- !flat_map_app. reflexivity.
  - apply transactions_events. unfold protected_write. cbn [app].
    repeat (constructor;
            [split; first [apply well_formed_concrete_byte; reflexivity
                          |apply bcd_is_byte; lia]|]).
    constructor.
Qed.

Lemma setDate_writes_calendar_fields_day_99 :
  exists evs,
    setDate 99 12 2024 15 47 30 6 (mkBoard [] []) = (Ok tt, mkBoard evs [])
    /\ option_map (fun ts => nth 1 ts (RegRead 0 0)) (transactions evs)
       = Some (RegWrite RTC_DAY_OF_THE_MONTH_WRITE 0x99).
Proof.
  destruct (setDate_writes_calendar_fields 99 12 2024 15 47 30 6 (mkBoard [] [])
              ltac:(lia) ltac:(lia) ltac:(lia) ltac:(lia))
    as (evs & Hrun & Hts).
  exists evs. split; [exact Hrun|]. rewrite Hts. reflexivity.
Defined.

(** X15.  Arguments that are zero or negative are skipped without
    error: when day, month, year and weekday are all at most 0,
    [setDate] returns normally and touches no pin, whatever the hour,
    minute and second. *)
Theorem setDate_skips_non_positive
        (dayOfTheMonth month year hour minute second dayOfWeek : Z) (s : board) :
  dayOfTheMonth <= 0 -> month <= 0 -> year <= 0 -> dayOfWeek <= 0 ->
  setDate dayOfTheMonth month year hour minute second dayOfWeek s = (Ok tt, s).
Proof.
  intros Hd Hm Hy Hw. rewrite setDate_as_evaluated, !gtb_0.
  rewrite (proj2 (Z.ltb_ge 0 dayOfTheMonth)), (proj2 (Z.ltb_ge 0 month)),
    (proj2 (Z.ltb_ge 0 year)), (proj2 (Z.ltb_ge 0 dayOfWeek)) by lia.
  reflexivity.
Qed.

Lemma setDate_skips_non_positive_zeros :
  setDate 0 0 0 12 30 45 0 (mkBoard [] []) = (Ok tt, mkBoard [] []).
Proof.
  apply (setDate_skips_non_positive 0 0 0 12 30 45 0 (mkBoard [] [])); lia.
Defined.

(** X16.  [setDate] is not all-or-nothing.  With day and month from 1
    to 99 and a year from 1 to 99 (a two-digit year such as 24), the day
    and the month are written, then the year conversion raises
    [ValueError]; the weekday is never written and the error reaches the
    caller with the chip half updated. *)
Theorem setDate_two_digit_year_half_written
        (dayOfTheMonth month year hour minute second dayOfWeek : Z) (s : board) :
  0 < dayOfTheMonth <= 99 ->
  0 < month <= 99 ->
  0 < year < 100 ->
  exists msg evs,
    setDate dayOfTheMonth month year hour minute second dayOfWeek s
    = (Raise (ValueError msg), extend s evs)
    /\ transactions evs
       = Some [RegWrite RTC_REG_WRITE_PROTECTION 0;
               RegWrite RTC_DAY_OF_THE_MONTH_WRITE (bcd_of dayOfTheMonth);
               RegWrite RTC_REG_WRITE_PROTECTION 0x80;
               RegWrite RTC_REG_WRITE_PROTECTION 0;
               RegWrite RTC_MONTH_WRITE (bcd_of month);
               RegWrite RTC_REG_WRITE_PROTECTION 0x80].
Proof.
  intros Hd Hm Hy.
  destruct (prepare_short_year_raises year ltac:(lia)) as [msg Hmsg].
  exists msg. eexists. split.
  - rewrite setDate_as_evaluated, !gtb_0.
    rewrite (proj2 (Z.ltb_lt 0 dayOfTheMonth)), (proj2 (Z.ltb_lt 0 month)),
      (proj2 (Z.ltb_lt 0 year)) by lia.
    cbn [when]. unfold writeDayOfTheMonth, writeMonth.
    erewrite bind_Ok by (apply write_field_run; lia).
    erewrite bind_Ok by (apply write_field_run; lia).
    erewrite bind_Raise
      by (unfold writeYear; apply bind_Raise; unfold lift; rewrite Hmsg; reflexivity).
    rewrite !extend_extend, <- !flat_map_app. reflexivity.
  - apply transactions_events. unfold protected_write. cbn [app].
    repeat (constructor;
            [split; first [apply well_formed_concrete_byte; reflexivity
                          |apply bcd_is_byte; lia]|]).
    constructor.
Qed.

Lemma setDate_two_digit_year_half_written_24 :
  exists msg evs,
    setDate 3 2 24 15 47 30 6 (mkBoard [] [])
    = (Raise (ValueError msg), mkBoard evs [])
    /\ option_map (@List.length transaction) (transactions evs) = Some 6%nat.
Proof.
  destruct (setDate_two_digit_year_half_written 3 2 24 15 47 30 6 (mkBoard [] [])
              ltac:(lia) ltac:(lia) ltac:(lia))
    as (msg & evs & Hrun & Hts).
  exists msg, evs. split; [exact Hrun|]. rewrite Hts. reflexivity.
Defined.

Section Protected.

Variable regs : list Z.
Hypothesis regs_are_bytes : Forall is_byte regs.

Lemma protected_ret {A} (a : A) : protected_only regs (ret a).
Proof. intros s. exists []. cbn. now rewrite extend_nil. Qed.

Lemma protected_lift {A} (r : result A) : protected_only regs (lift r).
Proof. intros s. exists []. cbn. now rewrite extend_nil. Qed.

Lemma protected_bind {A B} (m : M A) (k : A -> M B) :
  protected_only regs m -> (forall a, protected_only regs (k a)) ->
  protected_only regs (bind m k).
Proof.
  intros Hm Hk s. destruct (Hm s) as (ws & Hs & Hws).
  unfold bind. destruct (m s) as [[a|e] s1]; cbn [snd] in Hs; subst s1.
  - destruct (Hk a (extend s (flat_map transaction_events (protected_writes ws))))
      as (ws' & Hs' & Hws').
    exists (ws ++ ws'). rewrite Hs', extend_extend.
    unfold protected_writes. rewrite !flat_map_app.
    split; [reflexivity|]. apply Forall_app. now split.
  - exists ws. now split.
Qed.

Lemma protected_when (c : bool) (m : M unit) :
  protected_only regs m -> protected_only regs (when c m).
Proof. intros Hm. destruct c; [exact Hm|apply protected_ret]. Qed.

Lemma protected_unlock_then_write (register v : Z) :
  In register regs -> protected_only regs (_unlock_then_write register v).
Proof.
  intros Hr s. destruct (_int_to_bcd v) as [bcd|e] eqn:Hbcd.
  - exists [(register, bcd)].
    rewrite (_unlock_then_write_run register v bcd s Hbcd).
    unfold protected_writes. cbn [flat_map fst snd]. rewrite app_nil_r.
    split; [reflexivity|].
    constructor; [|constructor]. split; [exact Hr|].
    now apply _int_to_bcd_Ok_inv in Hbcd.
  - exists []. rewrite (_unlock_then_write_raise register v e s Hbcd).
    cbn. now rewrite extend_nil.
Qed.

Lemma protected_writes_well_formed (ws : list (Z * Z)) :
  Forall (fun w => In (fst w) regs /\ is_byte (snd w)) ws ->
  Forall well_formed (protected_writes ws).
Proof.
  induction 1 as [|[r b] ws [Hr Hb] Hws IH]; [constructor|].
  unfold protected_writes. cbn [flat_map fst snd]. apply Forall_app. split.
  - apply protected_write_well_formed; [|exact Hb].
    rewrite Forall_forall in regs_are_bytes. now apply regs_are_bytes.
  - exact IH.
Qed.

End Protected.

(** X17.  On every input and every board, whether it returns or raises,
    all [setDate] does on the wire is a sequence of whole protected
    writes (unlock, one BCD byte, re-lock) to the day, month, year and
    weekday registers.  So it never leaves write protection cleared,
    never leaves chip-select asserted (the line goes 1,0 once per
    transaction) and never reads. *)
Theorem setDate_only_protected_writes
        (dayOfTheMonth month year hour minute second dayOfWeek : Z) (s : board) :
  exists ws evs,
    snd (setDate dayOfTheMonth month year hour minute second dayOfWeek s)
    = extend s evs
    /\ transactions evs = Some (protected_writes ws)
    /\ Forall (fun w => In (fst w) calendar_registers /\ is_byte (snd w)) ws
    /\ levels_driven cs_rst evs = flat_map (fun _ => [1; 0]) (protected_writes ws).
Proof.
  assert (Hregs : Forall is_byte calendar_registers)
    by (repeat (constructor; [apply well_formed_concrete_byte; reflexivity|]);
        constructor).
  assert (Hall : protected_only calendar_registers
                   (setDate dayOfTheMonth month year hour minute second dayOfWeek)).
  { intros s1. rewrite setDate_as_evaluated. revert s1.
    repeat (apply protected_bind; [|intros _]); try apply protected_when;
      unfold writeDayOfTheMonth, writeMonth, writeYear, writeDayOfTheWeek;
      try (apply protected_unlock_then_write; cbn; tauto).
    apply protected_bind; [apply protected_lift|intros y].
    apply protected_unlock_then_write; cbn; tauto. }
  destruct (Hall s) as (ws & Hs & Hws).
  exists ws, (flat_map transaction_events (protected_writes ws)).
  split; [exact Hs|]. split; [|split; [exact Hws|]].
  - apply transactions_events.
    now apply (protected_writes_well_formed calendar_registers).
  - apply levels_driven_cs_transactions.
Qed.

(** ** start *)

(** X18.  [start] shifts out the burst command 0xBE, least significant
    bit first, with eight clock pulses, but never drives chip-select:
    what it puts on the wire is not a register transaction. *)
Theorem start_is_not_framed (s : board) :
  exists evs,
    start s = (Ok tt, extend s evs)
    /\ levels_driven dio evs = [0; 1; 1; 1; 1; 1; 0; 1]
    /\ byte_of_bits (levels_driven dio evs) = RTC_CLOCK_BURST_MODE
    /\ levels_driven clk evs = flat_map (fun _ => [1; 0]) (seq 0 8)
    /\ levels_driven cs_rst evs = []
    /\ transactions evs = None.
Proof.
  exists (write_byte_events RTC_CLOCK_BURST_MODE).
  split; [apply _write_byte_run|]. repeat split.
Qed.
